(** * check-NFT: the verification pipeline of [main.py]

    A shallow embedding of the wallet-verification bot: the Python values
    the handlers manipulate (text, parsed JSON), the [wallets] table of the
    SQLite store, and the four functions [init_db], [save_wallet],
    [check_nft] and [check_wallet].  Exceptions are explicit results,
    effects (replies, network calls, log records, the database) are
    threaded through a [world]. *)

From Stdlib Require Import List ZArith NArith Bool Lia String Ascii.
Import ListNotations.

(* ================================================================== *)
(** ** Python text *)
(* ================================================================== *)

Module PyStr.

(** A Python [str] is a sequence of Unicode code points; [len] counts
    code points. *)
Definition char := N.
Definition str := list char.

(** Literals of the source, written in ASCII. *)
Definition py (s : string) : str :=
  List.map N_of_ascii (list_ascii_of_string s).

Definition len (s : str) : Z := Z.of_nat (List.length s).

Fixpoint eqb (a b : str) : bool :=
  match a, b with
  | [], [] => true
  | x :: a', y :: b' => N.eqb x y && eqb a' b'
  | _, _ => false
  end.

(** [str.isspace] on one character: the code points CPython treats as
    whitespace. *)
Definition isspace (c : char) : bool :=
  ((9 <=? c) && (c <=? 13) ||
   (28 <=? c) && (c <=? 32) ||
   (c =? 133) || (c =? 160) || (c =? 5760) ||
   (8192 <=? c) && (c <=? 8202) ||
   (c =? 8232) || (c =? 8233) || (c =? 8239) || (c =? 8287) ||
   (c =? 12288))%N.

Fixpoint lstrip (s : str) : str :=
  match s with
  | [] => []
  | c :: t => if isspace c then lstrip t else s
  end.

Definition rstrip (s : str) : str := rev (lstrip (rev s)).

(** [s.strip()] with no argument. *)
Definition strip (s : str) : str := rstrip (lstrip s).

Fixpoint startswith (s p : str) : bool :=
  match p, s with
  | [], _ => true
  | x :: p', y :: s' => N.eqb x y && startswith s' p'
  | _ :: _, [] => false
  end.

(** [p in s] for two strings: substring test. *)
Fixpoint contains (s p : str) : bool :=
  startswith s p ||
  match s with
  | [] => false
  | _ :: s' => contains s' p
  end.

(** Keys of a dict in first-insertion order, each once. *)
Fixpoint distinct (seen ks : list str) : list str :=
  match ks with
  | [] => []
  | k :: ks' =>
      if existsb (eqb k) seen then distinct seen ks'
      else k :: distinct (k :: seen) ks'
  end.

End PyStr.

Import PyStr.

(* ================================================================== *)
(** ** Exceptions and results *)
(* ================================================================== *)

Inductive exn : Type :=
| TypeError
| KeyError
| JSONDecodeError          (* raised by [response.json()] *)
| RequestException         (* raised by [requests.post] *)
| sqlite3_Error            (* [sqlite3.Error] and its subclasses *)
| UnboundLocalError
| UnicodeEncodeError.      (* raised when a [str] cannot be encoded as UTF-8 *)

Inductive outcome (A : Type) : Type :=
| Return (a : A)
| Raise (e : exn).

Arguments Return {A} a.
Arguments Raise {A} e.

Definition obind {A B} (m : outcome A) (k : A -> outcome B) : outcome B :=
  match m with
  | Return a => k a
  | Raise e => Raise e
  end.

Declare Scope outcome_scope.
Delimit Scope outcome_scope with outcome.
Notation "x <- m ;; k" := (obind m (fun x => k))
  (at level 61, m at next level, right associativity) : outcome_scope.

(* ================================================================== *)
(** ** Parsed JSON, as [json.loads] returns it *)
(* ================================================================== *)

Module Json.

#[local] Unset Elimination Schemes.

Inductive json : Type :=
| JNull                                   (* None *)
| JBool (b : bool)
| JInt (z : Z)
| JFloat (mantissa exponent : Z)
| JStr (s : str)
| JArray (xs : list json)                 (* list *)
| JObject (kvs : list (str * json)).      (* dict; the first binding of a key is the live one *)

#[local] Set Elimination Schemes.

Fixpoint assoc (k : str) (kvs : list (str * json)) : option json :=
  match kvs with
  | [] => None
  | (k', v) :: rest => if PyStr.eqb k k' then Some v else assoc k rest
  end.

(** [v == s] where [s] is a [str]. *)
Definition eq_str (v : json) (s : str) : bool :=
  match v with
  | JStr t => PyStr.eqb t s
  | _ => false
  end.

(** [v == c] where [c] is what [os.getenv] gave: a [str], or [None]. *)
Definition eq_getenv (v : json) (c : option str) : bool :=
  match c, v with
  | Some s, _ => eq_str v s
  | None, JNull => true
  | None, _ => false
  end.

(** [k in v] *)
Definition contains (k : str) (v : json) : outcome bool :=
  match v with
  | JObject kvs => Return (match assoc k kvs with Some _ => true | None => false end)
  | JArray xs => Return (existsb (fun x => eq_str x k) xs)
  | JStr s => Return (PyStr.contains s k)
  | JNull | JBool _ | JInt _ | JFloat _ _ => Raise TypeError
  end.

(** [v[k]] with a [str] subscript. *)
Definition getitem (v : json) (k : str) : outcome json :=
  match v with
  | JObject kvs =>
      match assoc k kvs with
      | Some x => Return x
      | None => Raise KeyError
      end
  | _ => Raise TypeError
  end.

(** What [for x in v] visits, in order. *)
Definition iter (v : json) : outcome (list json) :=
  match v with
  | JArray xs => Return xs
  | JObject kvs => Return (List.map JStr (PyStr.distinct [] (List.map fst kvs)))
  | JStr s => Return (List.map (fun c => JStr [c]) s)
  | JNull | JBool _ | JInt _ | JFloat _ _ => Raise TypeError
  end.

(** [len(v)] *)
Definition len (v : json) : outcome Z :=
  match v with
  | JArray xs => Return (Z.of_nat (List.length xs))
  | JObject kvs => Return (Z.of_nat (List.length (PyStr.distinct [] (List.map fst kvs))))
  | JStr s => Return (PyStr.len s)
  | JNull | JBool _ | JInt _ | JFloat _ _ => Raise TypeError
  end.

End Json.

Import Json.

(* ================================================================== *)
(** ** The SQLite store: table [wallets] *)
(* ================================================================== *)

Module Wallets.

(** One row of
    [wallets (id INTEGER PRIMARY KEY AUTOINCREMENT,
              wallet_address TEXT UNIQUE, has_nft INTEGER)]. *)
Record row : Type := mk_row {
  id : Z;
  wallet_address : str;
  has_nft : Z
}.

(** The rows in insertion order, and the AUTOINCREMENT high-water mark
    SQLite keeps for the table.  Rowids are unbounded integers here. *)
Record table : Type := mk_table {
  rows : list row;
  sqlite_sequence : Z
}.

Definition create : table := {| rows := []; sqlite_sequence := 0 |}.

Definition max_rowid (rs : list row) : Z :=
  fold_right (fun r m => Z.max (id r) m) 0%Z rs.

(** The rowid AUTOINCREMENT picks: above every rowid the table has ever
    held. *)
Definition new_rowid (t : table) : Z :=
  (Z.max (sqlite_sequence t) (max_rowid (rows t)) + 1)%Z.

Fixpoint find (a : str) (rs : list row) : option row :=
  match rs with
  | [] => None
  | r :: rest => if PyStr.eqb (wallet_address r) a then Some r else find a rest
  end.

(** [DO UPDATE SET has_nft = v] on the row that conflicts on
    [wallet_address]. *)
Fixpoint do_update (a : str) (v : Z) (rs : list row) : list row :=
  match rs with
  | [] => []
  | r :: rest =>
      if PyStr.eqb (wallet_address r) a
      then mk_row (id r) (wallet_address r) v :: rest
      else r :: do_update a v rest
  end.

(** [INSERT INTO wallets (wallet_address, has_nft) VALUES (a, v)
     ON CONFLICT(wallet_address) DO UPDATE SET has_nft = v'].
    The rowid is drawn before the uniqueness check, so the high-water
    mark advances on both branches. *)
Definition upsert (a : str) (v v' : Z) (t : table) : table :=
  let rid := new_rowid t in
  {| rows := match find a (rows t) with
             | Some _ => do_update a v' (rows t)
             | None => rows t ++ [mk_row rid a v]
             end;
     sqlite_sequence := rid |}.

(** Number of records held for an address. *)
Definition count (a : str) (t : table) : nat :=
  List.length (filter (fun r => PyStr.eqb (wallet_address r) a) (rows t)).

End Wallets.

(* ================================================================== *)
(** ** The world the handlers act on *)
(* ================================================================== *)

(** Texts sent with [update.message.reply_text]; the chat transport is a
    collaborator that delivers what it is given. *)
Inductive message : Type :=
| MsgInvalidAddress                     (* "Введите корректный Solana-адрес!" *)
| MsgChecking (wallet_address : str)    (* "Проверяем NFT у {wallet_address}..." *)
| MsgHasNft                             (* "У кошелька есть NFT из коллекции Trinity!" *)
| MsgNoNft.                             (* "У кошелька нет NFT из коллекции Trinity." *)

Inductive log_record : Type :=
| InfoReceived (count : Z) (wallet_address : str)   (* logging.info, line 87 *)
| InfoFound (collection : option str)               (* logging.info, line 93 *)
| ErrorSaving.                                      (* logging.error, line 55 *)

(** The JSON-RPC call of [check_nft]. *)
Record rpc_request : Type := mk_request {
  api_key : option str;
  rpc_method : str;
  ownerAddress : str;
  page : Z;
  limit : Z
}.

(** What [requests.post] hands back: the status and the body, [None] when
    the body is not JSON (then [response.json()] raises). *)
Record response : Type := mk_response {
  status_code : Z;
  body : option json
}.

Definition response_json (r : response) : outcome json :=
  match body r with
  | Some data => Return data
  | None => Raise JSONDecodeError
  end.

(** How the store behaves during one [save_wallet]. *)
Inductive storage : Type :=
| Healthy
| ConnectFails       (* [sqlite3.connect] raises [sqlite3.Error] *)
| ExecuteFails       (* [cursor.execute] raises [sqlite3.Error] *)
| CommitFails        (* [conn.commit] raises [sqlite3.Error] *)
| BindFails.         (* [cursor.execute] raises [UnicodeEncodeError]: the
                        address holds a lone surrogate and cannot be bound *)

(** Module globals read from the environment, and the two collaborators. *)
Record env : Type := mk_env {
  HELIUS_API_KEY : option str;
  COLLECTION_ID : option str;
  requests_post : rpc_request -> outcome response;
  sqlite : storage
}.

Record world : Type := mk_world {
  outbox : list message;
  net_calls : list rpc_request;
  log : list log_record;
  db : Wallets.table
}.

Definition reply_text (m : message) (w : world) : world :=
  mk_world (outbox w ++ [m]) (net_calls w) (log w) (db w).

Definition record_call (q : rpc_request) (w : world) : world :=
  mk_world (outbox w) (net_calls w ++ [q]) (log w) (db w).

Definition logging (l : log_record) (w : world) : world :=
  mk_world (outbox w) (net_calls w) (log w ++ [l]) (db w).

Definition set_db (t : Wallets.table) (w : world) : world :=
  mk_world (outbox w) (net_calls w) (log w) t.

(** Handlers run in a state-and-exception monad over the [world]: what a
    raised exception leaves behind stays done. *)
Definition M (A : Type) : Type := world -> outcome A * world.

Definition ret {A} (a : A) : M A := fun w => (Return a, w).

Definition bind {A B} (m : M A) (k : A -> M B) : M B :=
  fun w =>
    match m w with
    | (Return a, w') => k a w'
    | (Raise e, w') => (Raise e, w')
    end.

Definition lift {A} (o : outcome A) : M A := fun w => (o, w).

Definition effect (f : world -> world) : M unit := fun w => (Return tt, f w).

Declare Scope handler_scope.
Delimit Scope handler_scope with handler.
Notation "x <~ m ;; k" := (bind m (fun x => k))
  (at level 61, m at next level, right associativity) : handler_scope.
Notation "m ;;; k" := (bind m (fun _ => k))
  (at level 61, right associativity) : handler_scope.

(* ================================================================== *)
(** ** main.py *)
(* ================================================================== *)

(** [CREATE TABLE IF NOT EXISTS wallets (...)]: an existing table is left
    as it is. *)
Definition init_db (existing : option Wallets.table) : Wallets.table :=
  match existing with
  | Some t => t
  | None => Wallets.create
  end.

(** [int(has_nft)] *)
Definition int (b : bool) : Z := if b then 1%Z else 0%Z.

(** The three calls into [sqlite3] that [save_wallet] makes. *)
Definition sqlite3_connect (s : storage) : outcome unit :=
  match s with
  | ConnectFails => Raise sqlite3_Error
  | _ => Return tt
  end.

Definition cursor_execute (s : storage) (a : str) (v v' : Z) (t : Wallets.table)
  : outcome Wallets.table :=
  match s with
  | ExecuteFails => Raise sqlite3_Error
  | BindFails => Raise UnicodeEncodeError
  | _ => Return (Wallets.upsert a v v' t)
  end.

Definition conn_commit (s : storage) : outcome unit :=
  match s with
  | CommitFails => Raise sqlite3_Error
  | _ => Return tt
  end.

(** Lines 43-57.  [conn] is the local variable of the same name: unbound
    ([None]) until [sqlite3.connect] has returned.  A statement that was
    not committed is gone when the connection closes. *)
Definition save_wallet (e : env) (wallet_address : str) (has_nft : bool) : M unit :=
  fun w =>
    (* try: *)
    let '(tried, conn, w1) :=
      match sqlite3_connect (sqlite e) with
      | Raise ex => (Raise ex, None, w)
      | Return c =>
          match cursor_execute (sqlite e) wallet_address
                  (int has_nft) (int has_nft) (db w) with
          | Raise ex => (Raise ex, Some c, w)
          | Return written =>
              match conn_commit (sqlite e) with
              | Raise ex => (Raise ex, Some c, w)
              | Return _ => (Return tt, Some c, set_db written w)
              end
          end
      end in
    (* except sqlite3.Error as e: logging.error(...) *)
    let '(handled, w2) :=
      match tried with
      | Raise sqlite3_Error => (Return tt, logging ErrorSaving w1)
      | other => (other, w1)
      end in
    (* finally: conn.close() *)
    match conn with
    | None => (Raise UnboundLocalError, w2)
    | Some _ => (handled, w2)
    end.

(** Line 92: the test on one [group], [and] evaluated left to right. *)
Definition group_test (collection_id : option str) (group : json) : outcome bool :=
  (key <- getitem group (py "group_key") ;;
   if eq_str key (py "collection")
   then value <- getitem group (py "group_value") ;;
        Return (eq_getenv value collection_id)
   else Return false)%outcome.

(** A [for] loop whose body returns [True] on a hit. *)
Fixpoint first_hit (body : json -> outcome bool) (xs : list json) : outcome bool :=
  match xs with
  | [] => Return false
  | x :: rest =>
      (hit <- body x ;;
       if hit then Return true else first_hit body rest)%outcome
  end.

(** Lines 90-94: the body of [for nft in nfts]. *)
Definition nft_test (collection_id : option str) (nft : json) : outcome bool :=
  (has_grouping <- contains (py "grouping") nft ;;
   if has_grouping
   then grouping <- getitem nft (py "grouping") ;;
        groups <- iter grouping ;;
        first_hit (group_test collection_id) groups
   else Return false)%outcome.

(** Lines 89-94: the scan of the parsed items. *)
Definition membership_decision (collection_id : option str) (nfts : list json)
  : outcome bool :=
  first_hit (nft_test collection_id) nfts.

(** Lines 69-79: the endpoint (its key) and the JSON-RPC payload. *)
Definition payload (e : env) (wallet_address : str) : rpc_request :=
  mk_request (HELIUS_API_KEY e) (py "getAssetsByOwner") wallet_address 1 1000.

(** Lines 67-95. *)
Definition check_nft (e : env) (wallet_address : str) : M bool :=
  (effect (record_call (payload e wallet_address)) ;;;
   response <~ lift (requests_post e (payload e wallet_address)) ;;
   if (status_code response =? 200)%Z then
     data <~ lift (response_json response) ;;
     has_result <~ lift (contains (py "result") data) ;;
     has_items <~ lift (if has_result
                        then (result <- getitem data (py "result") ;;
                              contains (py "items") result)%outcome
                        else Return false) ;;
     if has_items then
       nfts <~ lift (result <- getitem data (py "result") ;;
                     getitem result (py "items"))%outcome ;;
       count <~ lift (len nfts) ;;
       effect (logging (InfoReceived count wallet_address)) ;;;
       items <~ lift (iter nfts) ;;
       found <~ lift (membership_decision (COLLECTION_ID e) items) ;;
       if found
       then effect (logging (InfoFound (COLLECTION_ID e))) ;;; ret true
       else ret false
     else ret false
   else ret false)%handler.

(** Line 120: the length guard. *)
Definition valid_length (wallet_address : str) : bool :=
  negb ((PyStr.len wallet_address <? 32)%Z || (PyStr.len wallet_address >? 44)%Z).

(** Lines 116-132; [text] is [update.message.text]. *)
Definition check_wallet (e : env) (text : str) : M unit :=
  let wallet_address := strip text in
  if (PyStr.len wallet_address <? 32)%Z || (PyStr.len wallet_address >? 44)%Z then
    effect (reply_text MsgInvalidAddress)
  else
    (effect (reply_text (MsgChecking wallet_address)) ;;;
     has_nft <~ check_nft e wallet_address ;;
     save_wallet e wallet_address has_nft ;;;
     if has_nft
     then effect (reply_text MsgHasNft)
     else effect (reply_text MsgNoNft))%handler.

(* ================================================================== *)
(** ** Vocabulary of the properties *)
(* ================================================================== *)

(** A group tag of kind "collection" whose value is exactly [cid]. *)
Definition tag_matches (cid : str) (group : json) : Prop :=
  getitem group (py "group_key") = Return (JStr (py "collection")) /\
  getitem group (py "group_value") = Return (JStr cid).

(** The asset carries such a tag in its [grouping]. *)
Definition carries (cid : str) (nft : json) : Prop :=
  exists groups group,
    getitem nft (py "grouping") = Return (JArray groups) /\
    In group groups /\ tag_matches cid group.

Definition is_some {A} (o : option A) : bool :=
  match o with Some _ => true | None => false end.

(** The asset list the remote service documents: each asset is an object
    whose [grouping], when present, is a sequence of objects with a
    [group_key] and a [group_value]. *)
Definition well_formed_group (group : json) : bool :=
  match group with
  | JObject kvs =>
      is_some (assoc (py "group_key") kvs) && is_some (assoc (py "group_value") kvs)
  | _ => false
  end.

Definition well_formed_asset (nft : json) : bool :=
  match nft with
  | JObject kvs =>
      match assoc (py "grouping") kvs with
      | None => true
      | Some (JArray groups) => forallb well_formed_group groups
      | Some _ => false
      end
  | _ => false
  end.

(** A sequence of [save_wallet] calls, each with the store behaving as
    its [env] says; a call that raises leaves its world behind too. *)
Fixpoint run_saves (calls : list (env * str * bool)) (w : world) : world :=
  match calls with
  | [] => w
  | (e, a, b) :: rest => run_saves rest (snd (save_wallet e a b w))
  end.

(** The UNIQUE constraint on [wallet_address]. *)
Definition unique_addresses (t : Wallets.table) : Prop :=
  NoDup (List.map Wallets.wallet_address (Wallets.rows t)).

(** Rowids grow along the insertion order, starting above [lo]. *)
Fixpoint ascending (lo : Z) (ids : list Z) : Prop :=
  match ids with
  | [] => True
  | i :: rest => (lo < i)%Z /\ ascending i rest
  end.

Record consistent (t : Wallets.table) : Prop := mk_consistent {
  cons_unique : unique_addresses t;
  cons_ascending : ascending 0 (List.map Wallets.id (Wallets.rows t));
  cons_mark : Forall (fun r => (Wallets.id r <= Wallets.sqlite_sequence t)%Z)
                     (Wallets.rows t)
}.

(** What identifies a record: its surrogate id and its address. *)
Definition identity (r : Wallets.row) : Z * str :=
  (Wallets.id r, Wallets.wallet_address r).

(** [has_nft] holds a boolean as an integer. *)
Definition bit_valued (t : Wallets.table) : Prop :=
  Forall (fun r => Wallets.has_nft r = 0%Z \/ Wallets.has_nft r = 1%Z)
         (Wallets.rows t).

(** The last reply of a handler run is one of the two decisions. *)
Definition decision_of (b : bool) : message := if b then MsgHasNft else MsgNoNft.

(** The remote outcomes that are to degrade to "no assets". *)
Definition non_success (r : response) : Prop := status_code r <> 200%Z.

Definition malformed_body (r : response) : Prop := body r = None.

Definition missing_fields (r : response) : Prop :=
  exists kvs,
    body r = Some (JObject kvs) /\
    (assoc (py "result") kvs = None \/
     exists kvs', assoc (py "result") kvs = Some (JObject kvs') /\
                  assoc (py "items") kvs' = None).

(** Fail-soft for all three outcomes, as a single statement. *)
Definition fail_soft_everywhere : Prop :=
  forall (e : env) (a : str) (w : world) (r : response),
    requests_post e (payload e a) = Return r ->
    non_success r \/ missing_fields r \/ malformed_body r ->
    fst (check_nft e a w) = Return false.

(** A handler run ended in one of the two terminals: the rejection notice,
    or a reported decision. *)
Definition ends_reported (run : outcome unit * world) : Prop :=
  fst run = Return tt /\
  exists sent m, outbox (snd run) = sent ++ [m] /\
                 (m = MsgInvalidAddress \/ m = MsgHasNft \/ m = MsgNoNft).

Definition total_everywhere : Prop :=
  forall (e : env) (text : str) (w : world), ends_reported (check_wallet e text w).

(* ================================================================== *)
(** ** Sample inputs *)
(* ================================================================== *)

Module Sample.

Definition collection : str := py "J1S9H3QjnRtBbbuD4HjPV6RpRhwuk4zKbxsnCHuTgh9w".

(** A 44-character address. *)
Definition address : str := py "Gh9ZwEmdLJ8DscKNTkTqPbNwLNNBjuSzaG9Vp2KGtKJr".

Definition tag (k v : str) : json :=
  JObject [(py "group_key", JStr k); (py "group_value", JStr v)].

Definition asset (name : str) (groups : list json) : json :=
  JObject [(py "id", JStr name); (py "grouping", JArray groups)].

Definition bare_asset (name : str) : json := JObject [(py "id", JStr name)].

Definition envelope (items : list json) : json :=
  JObject [(py "jsonrpc", JStr (py "2.0"));
           (py "result", JObject [(py "total", JInt (Z.of_nat (List.length items)));
                                  (py "items", JArray items)]);
           (py "id", JInt 1)].

(** An owner of the collection, behind an unrelated asset. *)
Definition holdings : list json :=
  [bare_asset (py "a1");
   asset (py "a2") [tag (py "creator") collection; tag (py "collection") collection];
   asset (py "a3") [tag (py "collection") (py "other")]].

Definition answers (r : response) : rpc_request -> outcome response :=
  fun _ => Return r.

Definition env_of (r : response) (st : storage) : env :=
  mk_env (Some (py "api-key")) (Some collection) (answers r) st.

Definition ok (items : list json) : response := mk_response 200 (Some (envelope items)).

(** Status 200 with a body that is not JSON. *)
Definition garbled : response := mk_response 200 None.

Definition http_500 : response := mk_response 500 None.

Definition fresh : world := mk_world [] [] [] (init_db None).

Definition padded : str := [32%N] ++ address ++ [10%N].

Definition short_padded : str :=
  py "Gh9ZwEmdLJ8DscKNTkTqPbNwLNNBjuS" ++ [32%N].

Definition other_address : str := py "4Nd1mYvQm8Uo3cYd9VzqkXwP7nG5pJrT2sLhB6aKfE3x".

(** Verifications of two wallets, one of them three times, one hitting a
    store that refuses the statement. *)
Definition calls : list (env * str * bool) :=
  [(env_of (ok holdings) Healthy, address, true);
   (env_of (ok []) Healthy, other_address, false);
   (env_of (ok holdings) ExecuteFails, address, true);
   (env_of http_500 Healthy, address, false);
   (env_of (ok holdings) Healthy, address, true)].

End Sample.

(* ================================================================== *)
(** ** Vocabulary of the further properties *)
(* ================================================================== *)

(** JSON values that are neither text nor containers: Python's [None],
    [bool], [int], [float]. *)
Definition scalar (v : json) : bool :=
  match v with
  | JNull | JBool _ | JInt _ | JFloat _ _ => true
  | JStr _ | JArray _ | JObject _ => false
  end.

(** A tag of kind "collection" whose value compares equal to what
    [os.getenv] gave for [COLLECTION_ID]. *)
Definition tag_equals (collection_id : option str) (group : json) : Prop :=
  getitem group (py "group_key") = Return (JStr (py "collection")) /\
  exists value,
    getitem group (py "group_value") = Return value /\
    eq_getenv value collection_id = true.

Definition carries_equal (collection_id : option str) (nft : json) : Prop :=
  exists groups group,
    getitem nft (py "grouping") = Return (JArray groups) /\
    In group groups /\ tag_equals collection_id group.

(** A tag of kind "collection" whose value is JSON [null]. *)
Definition tag_is_null (group : json) : Prop :=
  getitem group (py "group_key") = Return (JStr (py "collection")) /\
  getitem group (py "group_value") = Return JNull.

Definition is_healthy (s : storage) : bool :=
  match s with Healthy => true | _ => false end.

(** The flag of the last call for [a] that reached a working store. *)
Fixpoint last_saved (a : str) (calls : list (env * str * bool)) : option bool :=
  match calls with
  | [] => None
  | (e, a', b) :: rest =>
      match last_saved a rest with
      | Some later => Some later
      | None => if is_healthy (sqlite e) && PyStr.eqb a' a then Some b else None
      end
  end.

(** The store raises a [sqlite3.Error], at one of the three calls. *)
Definition raises_sqlite_error (s : storage) : bool :=
  match s with
  | ConnectFails | ExecuteFails | CommitFails => true
  | Healthy | BindFails => false
  end.

(** How many of the calls met a store that failed with a [sqlite3.Error]. *)
Definition failed_saves (calls : list (env * str * bool)) : nat :=
  List.length (filter (fun c => raises_sqlite_error (sqlite (fst (fst c)))) calls).

(** A code point of the surrogate range, which UTF-8 cannot encode. *)
Definition lone_surrogate (c : char) : bool :=
  ((55296 <=? c) && (c <=? 57343))%N.

(** An address as [check_wallet] lets it through: of valid length and
    with no whitespace at either end. *)
Definition key_ok (a : str) : Prop :=
  valid_length a = true /\ strip a = a.

(** A sequence of messages handled by [check_wallet], one after the
    other, each in its own environment. *)
Fixpoint run_checks (runs : list (env * str)) (w : world) : world :=
  match runs with
  | [] => w
  | (e, text) :: rest => run_checks rest (snd (check_wallet e text w))
  end.

(** Further sample inputs. *)
Module Cases.

(** The environment with [COLLECTION_ID] not set. *)
Definition env_unset (r : response) (st : storage) : env :=
  mk_env (Some (py "api-key")) None (Sample.answers r) st.

(** An asset whose collection tag carries no value. *)
Definition null_tagged : list json :=
  [Sample.bare_asset (py "b1");
   Sample.asset (py "b2")
     [JObject [(py "group_key", JStr (py "collection"));
               (py "group_value", JNull)]]].

(** A tag without [group_key], in front of an owner's asset. *)
Definition broken_then_owner : list json :=
  [Sample.bare_asset (py "c1");
   Sample.asset (py "c2") [JObject [(py "group_value", JStr Sample.collection)]];
   Sample.asset (py "c3") [Sample.tag (py "collection") Sample.collection]].

(** A text of 33 characters that ends in a lone surrogate. *)
Definition surrogate_address : str :=
  py "Gh9ZwEmdLJ8DscKNTkTqPbNwLNNBjuSz" ++ [55296%N].

(** A remote that cannot be reached. *)
Definition env_offline (st : storage) : env :=
  mk_env (Some (py "api-key")) (Some Sample.collection)
         (fun _ => Raise RequestException) st.

(** The one call [check_nft] makes for the sample address. *)
Definition call : rpc_request :=
  mk_request (Some (py "api-key")) (py "getAssetsByOwner") Sample.address 1 1000.

(** Four messages: a padded address, a blank line, the address again
    while the remote is down, a short word. *)
Definition messages : list (env * str) :=
  [(Sample.env_of (Sample.ok Sample.holdings) Healthy, Sample.padded);
   (Sample.env_of (Sample.ok []) Healthy, [32%N; 10%N]);
   (env_offline Healthy, Sample.address);
   (Sample.env_of Sample.http_500 ExecuteFails, py "short")].

Definition body_with_result (result : json) : response :=
  mk_response 200 (Some (JObject [(py "jsonrpc", JStr (py "2.0"));
                                  (py "result", result)])).

End Cases.

(* ================================================================== *)
(** ** Proof steps *)
(* ================================================================== *)

Arguments py : simpl never.

Ltac case_split :=
  match goal with
  | |- context [match ?x with _ => _ end] => destruct x eqn:?
  end.

Ltac run_handler := unfold bind, lift, effect, ret; simpl.

(* ================================================================== *)
(** ** Text: equality and [strip] *)
(* ================================================================== *)

Lemma eqb_eq (a b : str) : PyStr.eqb a b = true <-> a = b.
Proof.
  revert b; induction a as [|x a IH]; intros [|y b]; simpl; split;
    try congruence; try reflexivity.
  - intros H. apply andb_true_iff in H as [Hx Hab].
    apply N.eqb_eq in Hx. apply IH in Hab. congruence.
  - intros H. inversion H; subst. rewrite N.eqb_refl. simpl. now apply IH.
Qed.

Lemma eqb_refl (a : str) : PyStr.eqb a a = true.
Proof. now apply eqb_eq. Qed.

Lemma eqb_neq (a b : str) : PyStr.eqb a b = false <-> a <> b.
Proof.
  split.
  - intros H E. apply eqb_eq in E. congruence.
  - intros H. destruct (PyStr.eqb a b) eqn:E; [|reflexivity].
    apply eqb_eq in E. contradiction.
Qed.

Lemma eqb_sym (a b : str) : PyStr.eqb a b = PyStr.eqb b a.
Proof.
  destruct (PyStr.eqb b a) eqn:E.
  - apply eqb_eq in E. subst. apply eqb_refl.
  - apply eqb_neq in E. apply eqb_neq. congruence.
Qed.

Lemma lstrip_split (s : str) :
  exists l, s = l ++ lstrip s /\ forallb isspace l = true.
Proof.
  induction s as [|c t [l [E F]]]; simpl.
  - exists []. auto.
  - destruct (isspace c) eqn:Hc.
    + exists (c :: l). simpl. rewrite Hc, F. split; [congruence | reflexivity].
    + exists []. auto.
Qed.

Lemma lstrip_head (s : str) (c : char) (t : str) :
  lstrip s = c :: t -> isspace c = false.
Proof.
  induction s as [|x s IH]; simpl; [discriminate|].
  destruct (isspace x) eqn:Hx; [exact IH|].
  intros E. inversion E; subst. exact Hx.
Qed.

Lemma forallb_rev {A} (p : A -> bool) (l : list A) :
  forallb p l = true -> forallb p (rev l) = true.
Proof.
  intros H. apply forallb_forall. intros x Hx.
  apply in_rev in Hx. revert x Hx. now apply forallb_forall.
Qed.

Lemma rstrip_split (s : str) :
  exists r, s = rstrip s ++ r /\ forallb isspace r = true.
Proof.
  destruct (lstrip_split (rev s)) as [l [E F]].
  exists (rev l). split.
  - unfold rstrip. rewrite <- rev_app_distr, <- E. symmetry. apply rev_involutive.
  - now apply forallb_rev.
Qed.

Lemma rstrip_last (s t : str) (c : char) :
  rstrip s = t ++ [c] -> isspace c = false.
Proof.
  unfold rstrip. intros E.
  apply (f_equal (@rev char)) in E.
  rewrite rev_involutive, rev_app_distr in E. simpl in E.
  exact (lstrip_head _ _ _ E).
Qed.

(** [strip] cuts a run of whitespace off each end and nothing else. *)
Lemma strip_split (s : str) :
  exists l r, s = l ++ strip s ++ r /\
              forallb isspace l = true /\ forallb isspace r = true.
Proof.
  destruct (lstrip_split s) as [l [El Fl]].
  destruct (rstrip_split (lstrip s)) as [r [Er Fr]].
  exists l, r. unfold strip. rewrite <- Er. auto.
Qed.

Lemma strip_first (s : str) (c : char) (t : str) :
  strip s = c :: t -> isspace c = false.
Proof.
  intros E. destruct (rstrip_split (lstrip s)) as [r [Er _]].
  unfold strip in E. rewrite E in Er. simpl in Er.
  exact (lstrip_head _ _ _ Er).
Qed.

Lemma strip_last (s t : str) (c : char) :
  strip s = t ++ [c] -> isspace c = false.
Proof. unfold strip. apply rstrip_last. Qed.

Lemma strip_len (s : str) : (PyStr.len (strip s) <= PyStr.len s)%Z.
Proof.
  destruct (strip_split s) as [l [r [E _]]].
  unfold PyStr.len. rewrite E at 2. rewrite !length_app. lia.
Qed.

(** The guard of line 120 read as a validator. *)
Lemma valid_length_iff (s : str) :
  valid_length s = true <-> (32 <= PyStr.len s <= 44)%Z.
Proof.
  unfold valid_length. rewrite negb_true_iff, orb_false_iff.
  rewrite Z.ltb_ge, Z.gtb_ltb, Z.ltb_ge. tauto.
Qed.

Lemma guard_valid_length (s : str) :
  ((PyStr.len s <? 32)%Z || (PyStr.len s >? 44)%Z) = negb (valid_length s).
Proof. unfold valid_length. now rewrite negb_involutive. Qed.

(* ================================================================== *)
(** ** The scan of the parsed items *)
(* ================================================================== *)

Lemma eq_str_iff (v : json) (s : str) : eq_str v s = true <-> v = JStr s.
Proof.
  destruct v; simpl; try (split; [discriminate | congruence]).
  rewrite eqb_eq. split; congruence.
Qed.

Lemma getitem_contains (v : json) (k : str) (x : json) :
  getitem v k = Return x -> contains k v = Return true.
Proof.
  destruct v; simpl; try discriminate.
  destruct (assoc k kvs); [reflexivity | discriminate].
Qed.

Lemma assoc_getitem (kvs : list (str * json)) (k : str) (v : json) :
  assoc k kvs = Some v -> getitem (JObject kvs) k = Return v.
Proof. intros H. simpl. now rewrite H. Qed.

(** A loop whose body never raises on its list answers whether some
    element hits. *)
Lemma first_hit_exists (body : json -> outcome bool) (P : json -> Prop)
      (xs : list json) :
  (forall x, In x xs -> exists b, body x = Return b /\ (b = true <-> P x)) ->
  exists b, first_hit body xs = Return b /\
            (b = true <-> exists x, In x xs /\ P x).
Proof.
  induction xs as [|x xs IH]; intros Hbody.
  - exists false. split; [reflexivity|].
    split; [discriminate | intros [x [[] _]]].
  - destruct (Hbody x (or_introl eq_refl)) as [b [Hb HP]].
    simpl. rewrite Hb. simpl. destruct b.
    + exists true. split; [reflexivity|].
      split; [|reflexivity]. intros _. exists x. split; [now left | now apply HP].
    + destruct IH as [b' [Hb' HP']].
      { intros y Hy. apply Hbody. now right. }
      exists b'. split; [exact Hb'|].
      rewrite HP'. split.
      * intros [y [Hy Py]]. exists y. split; [now right | exact Py].
      * intros [y [[Hy|Hy] Py]].
        -- subst y. apply HP in Py. discriminate.
        -- exists y. auto.
Qed.

(** The loop stops at the first hit: what follows is never evaluated. *)
Lemma first_hit_stops (body : json -> outcome bool) (before after : list json)
      (x : json) :
  (forall y, In y before -> exists b, body y = Return b) ->
  body x = Return true ->
  first_hit body (before ++ x :: after) = Return true.
Proof.
  induction before as [|y before IH]; intros Hbefore Hx; simpl.
  - now rewrite Hx.
  - destruct (Hbefore y (or_introl eq_refl)) as [b Hb]. rewrite Hb. simpl.
    destruct b; [reflexivity|].
    apply IH; [|exact Hx]. intros z Hz. apply Hbefore. now right.
Qed.

Lemma group_test_well_formed (cid : str) (group : json) :
  well_formed_group group = true ->
  exists b, group_test (Some cid) group = Return b /\
            (b = true <-> tag_matches cid group).
Proof.
  destruct group as [| | | | |xs|kvs]; simpl; try discriminate.
  intros H. apply andb_true_iff in H as [Hk Hv].
  destruct (assoc (py "group_key") kvs) as [key|] eqn:Ek; [|discriminate].
  destruct (assoc (py "group_value") kvs) as [value|] eqn:Ev; [|discriminate].
  unfold group_test, tag_matches. simpl. rewrite Ek. simpl.
  destruct (eq_str key (py "collection")) eqn:Hkey.
  - rewrite Ev. simpl. eexists; split; [reflexivity|].
    apply eq_str_iff in Hkey. subst key. rewrite eq_str_iff.
    split; [intros ->; auto | intros [_ E]; congruence].
  - exists false. split; [reflexivity|].
    split; [discriminate|]. intros [E _].
    assert (key = JStr (py "collection")) as K by congruence.
    apply eq_str_iff in K. congruence.
Qed.

Lemma nft_test_well_formed (cid : str) (nft : json) :
  well_formed_asset nft = true ->
  exists b, nft_test (Some cid) nft = Return b /\ (b = true <-> carries cid nft).
Proof.
  destruct nft as [| | | | |xs|kvs]; simpl; try discriminate.
  unfold nft_test, carries. simpl.
  destruct (assoc (py "grouping") kvs) as [grouping|] eqn:Eg; simpl.
  - destruct grouping as [| | | | |groups|]; try discriminate.
    intros Hwf.
    destruct (first_hit_exists (group_test (Some cid)) (tag_matches cid) groups)
      as [b [Hb HP]].
    { intros g Hg. apply group_test_well_formed.
      revert g Hg. now apply forallb_forall. }
    exists b. split; [exact Hb|]. rewrite HP. split.
    + intros [g [Hg Hm]]. exists groups, g. auto.
    + intros [groups' [g [E [Hg Hm]]]].
      assert (groups' = groups) by congruence. subst. exists g. auto.
  - intros _. exists false. split; [reflexivity|].
    split; [discriminate|]. intros [groups [g [E _]]]. discriminate.
Qed.

Lemma membership_decision_well_formed (cid : str) (nfts : list json) :
  forallb well_formed_asset nfts = true ->
  exists b, membership_decision (Some cid) nfts = Return b /\
            (b = true <-> exists nft, In nft nfts /\ carries cid nft).
Proof.
  intros Hwf. apply first_hit_exists.
  intros nft Hin. apply nft_test_well_formed.
  revert nft Hin. now apply forallb_forall.
Qed.

Lemma nft_test_first_tag (cid : str) (kvs : list (str * json))
      (tags tags' : list json) (tag : json) :
  assoc (py "grouping") kvs = Some (JArray (tags ++ tag :: tags')) ->
  forallb well_formed_group tags = true ->
  tag_matches cid tag ->
  nft_test (Some cid) (JObject kvs) = Return true.
Proof.
  intros Eg Hwf [Hk Hv]. unfold nft_test. simpl. rewrite Eg. simpl.
  apply first_hit_stops.
  - intros g Hg.
    destruct (group_test_well_formed cid g) as [b [Hb _]]; [|now exists b].
    revert g Hg. now apply forallb_forall.
  - unfold group_test. rewrite Hk. simpl.
    rewrite Hv. simpl. now rewrite eqb_refl.
Qed.

(** On any parsed value at all: when the scan returns, its answer is the
    right one. *)
Lemma first_hit_true (body : json -> outcome bool) (xs : list json) :
  first_hit body xs = Return true -> exists x, In x xs /\ body x = Return true.
Proof.
  induction xs as [|x xs IH]; simpl; [discriminate|].
  destruct (body x) as [[|]|ex] eqn:E; simpl; try discriminate.
  - intros _. exists x. auto.
  - intros H. destruct (IH H) as [y [Hy Hb]]. exists y. auto.
Qed.

Lemma first_hit_false (body : json -> outcome bool) (xs : list json) :
  first_hit body xs = Return false -> forall x, In x xs -> body x = Return false.
Proof.
  induction xs as [|x xs IH]; simpl; [tauto|].
  destruct (body x) as [[|]|ex] eqn:E; simpl; try discriminate.
  intros H y [<-|Hy]; [exact E | exact (IH H y Hy)].
Qed.

Lemma group_test_true (cid : str) (group : json) :
  group_test (Some cid) group = Return true <-> tag_matches cid group.
Proof.
  unfold group_test, tag_matches. split.
  - destruct (getitem group (py "group_key")) as [key|ex] eqn:Ek; simpl;
      [|discriminate].
    destruct (eq_str key (py "collection")) eqn:Hkey; [|discriminate].
    apply eq_str_iff in Hkey. subst key.
    destruct (getitem group (py "group_value")) as [value|ex] eqn:Ev; simpl;
      [|discriminate].
    intros H. assert (eq_str value cid = true) as Hv by congruence.
    apply eq_str_iff in Hv. subst value. auto.
  - intros [Hk Hv]. rewrite Hk. simpl. rewrite Hv. simpl. now rewrite eqb_refl.
Qed.

Lemma nft_test_true (cid : str) (nft : json) :
  nft_test (Some cid) nft = Return true -> carries cid nft.
Proof.
  unfold nft_test, carries.
  destruct (contains (py "grouping") nft) as [[|]|ex]; simpl; try discriminate.
  destruct (getitem nft (py "grouping")) as [grouping|ex]; simpl; [|discriminate].
  destruct (iter grouping) as [groups|ex] eqn:Ei; simpl; [|discriminate].
  intros H. apply first_hit_true in H as [group [Hin Hg]].
  apply group_test_true in Hg.
  destruct grouping as [| | | | |xs|kvs]; simpl in Ei; try discriminate;
    inversion Ei; subst groups.
  - apply in_map_iff in Hin as [c [<- _]]. destruct Hg as [Hk _]. discriminate.
  - exists xs, group. auto.
  - apply in_map_iff in Hin as [k [<- _]]. destruct Hg as [Hk _]. discriminate.
Qed.

Lemma nft_test_not_false (cid : str) (nft : json) :
  carries cid nft -> nft_test (Some cid) nft <> Return false.
Proof.
  intros [groups [group [Hg [Hin Hm]]]] H.
  unfold nft_test in H.
  rewrite (getitem_contains _ _ _ Hg), Hg in H. simpl in H.
  pose proof (first_hit_false _ _ H group Hin) as Hf.
  apply group_test_true in Hm. congruence.
Qed.

Lemma membership_decision_sound (cid : str) (nfts : list json) (b : bool) :
  membership_decision (Some cid) nfts = Return b ->
  (b = true <-> exists nft, In nft nfts /\ carries cid nft).
Proof.
  unfold membership_decision. intros H. destruct b.
  - split; [|reflexivity]. intros _.
    apply first_hit_true in H as [nft [Hin Ht]].
    exists nft. split; [exact Hin | now apply nft_test_true].
  - split; [discriminate|]. intros [nft [Hin Hc]].
    pose proof (first_hit_false _ _ H nft Hin) as Hf.
    now apply nft_test_not_false in Hc.
Qed.

(* ================================================================== *)
(** ** [check_nft] *)
(* ================================================================== *)

(** On a 200 answer carrying [result.items] as a list, the handler's
    value is the scan's. *)
Lemma check_nft_scans (e : env) (a : str) (w : world) (r : response)
      (data result : json) (nfts : list json) :
  requests_post e (payload e a) = Return r ->
  status_code r = 200%Z ->
  body r = Some data ->
  getitem data (py "result") = Return result ->
  getitem result (py "items") = Return (JArray nfts) ->
  fst (check_nft e a w) = membership_decision (COLLECTION_ID e) nfts.
Proof.
  intros Hpost Hst Hbody Hres Hitems.
  unfold check_nft, response_json. run_handler.
  rewrite Hpost, Hst, Hbody. simpl.
  rewrite (getitem_contains _ _ _ Hres), Hres. simpl.
  rewrite (getitem_contains _ _ _ Hitems), Hitems. simpl.
  destruct (membership_decision (COLLECTION_ID e) nfts) as [[|]|ex]; reflexivity.
Qed.

(** The handler touches neither the replies nor the store, and makes its
    one network call whatever comes back. *)
Lemma check_nft_frame (e : env) (a : str) (w : world) :
  outbox (snd (check_nft e a w)) = outbox w /\
  net_calls (snd (check_nft e a w)) = net_calls w ++ [payload e a] /\
  db (snd (check_nft e a w)) = db w.
Proof.
  unfold check_nft. run_handler.
  repeat (case_split; simpl; auto).
Qed.

(** Its value does not depend on the world it starts in. *)
Lemma check_nft_value (e : env) (a : str) (w w' : world) :
  fst (check_nft e a w) = fst (check_nft e a w').
Proof.
  unfold check_nft. run_handler.
  repeat (case_split; simpl; auto).
Qed.

Lemma check_nft_non_200 (e : env) (a : str) (w : world) (r : response) :
  requests_post e (payload e a) = Return r ->
  status_code r <> 200%Z ->
  check_nft e a w = (Return false, record_call (payload e a) w).
Proof.
  intros Hpost Hst. unfold check_nft. run_handler. rewrite Hpost.
  apply Z.eqb_neq in Hst. now rewrite Hst.
Qed.

Lemma check_nft_no_result (e : env) (a : str) (w : world) (r : response)
      (kvs : list (str * json)) :
  requests_post e (payload e a) = Return r ->
  status_code r = 200%Z ->
  body r = Some (JObject kvs) ->
  assoc (py "result") kvs = None ->
  check_nft e a w = (Return false, record_call (payload e a) w).
Proof.
  intros Hpost Hst Hbody Hres. unfold check_nft, response_json. run_handler.
  rewrite Hpost, Hst, Hbody. simpl. now rewrite Hres.
Qed.

Lemma check_nft_no_items (e : env) (a : str) (w : world) (r : response)
      (kvs kvs' : list (str * json)) :
  requests_post e (payload e a) = Return r ->
  status_code r = 200%Z ->
  body r = Some (JObject kvs) ->
  assoc (py "result") kvs = Some (JObject kvs') ->
  assoc (py "items") kvs' = None ->
  check_nft e a w = (Return false, record_call (payload e a) w).
Proof.
  intros Hpost Hst Hbody Hres Hitems. unfold check_nft, response_json. run_handler.
  rewrite Hpost, Hst, Hbody. simpl. rewrite Hres. simpl. now rewrite Hitems.
Qed.

Lemma check_nft_malformed_body (e : env) (a : str) (w : world) (r : response) :
  requests_post e (payload e a) = Return r ->
  status_code r = 200%Z ->
  body r = None ->
  check_nft e a w = (Raise JSONDecodeError, record_call (payload e a) w).
Proof.
  intros Hpost Hst Hbody. unfold check_nft, response_json. run_handler.
  now rewrite Hpost, Hst, Hbody.
Qed.

Lemma check_nft_empty_items (e : env) (a : str) (w : world) (r : response)
      (data result : json) :
  requests_post e (payload e a) = Return r ->
  status_code r = 200%Z ->
  body r = Some data ->
  getitem data (py "result") = Return result ->
  getitem result (py "items") = Return (JArray []) ->
  fst (check_nft e a w) = Return false.
Proof.
  intros. now rewrite (check_nft_scans e a w r data result [] H H0 H1 H2 H3).
Qed.

(* ================================================================== *)
(** ** The [wallets] table under the upsert *)
(* ================================================================== *)

Module WalletsFacts.
Import Wallets.

Lemma find_some (a : str) (rs : list row) (r : row) :
  find a rs = Some r -> In r rs /\ wallet_address r = a.
Proof.
  induction rs as [|x rs IH]; simpl; [discriminate|].
  destruct (PyStr.eqb (wallet_address x) a) eqn:E.
  - intros H. inversion H; subst. apply eqb_eq in E. auto.
  - intros H. destruct (IH H). auto.
Qed.

Lemma find_none (a : str) (rs : list row) :
  find a rs = None -> ~ In a (List.map wallet_address rs).
Proof.
  induction rs as [|x rs IH]; simpl; [tauto|].
  destruct (PyStr.eqb (wallet_address x) a) eqn:E; [discriminate|].
  intros H [Hx|Hin]; [|now apply IH].
  apply eqb_neq in E. contradiction.
Qed.

Lemma find_in (a : str) (rs : list row) :
  In a (List.map wallet_address rs) -> exists r, find a rs = Some r.
Proof.
  intros Hin. destruct (find a rs) as [r|] eqn:E; [now exists r|].
  now apply find_none in E.
Qed.

Lemma do_update_identity (a : str) (v : Z) (rs : list row) :
  List.map identity (do_update a v rs) = List.map identity rs.
Proof.
  induction rs as [|x rs IH]; simpl; [reflexivity|].
  destruct (PyStr.eqb (wallet_address x) a); simpl; [reflexivity|].
  now rewrite IH.
Qed.

Lemma map_id_identity (rs : list row) :
  List.map id rs = List.map fst (List.map identity rs).
Proof. rewrite map_map. reflexivity. Qed.

Lemma map_address_identity (rs : list row) :
  List.map wallet_address rs = List.map snd (List.map identity rs).
Proof. rewrite map_map. reflexivity. Qed.

Lemma find_do_update (a : str) (v : Z) (rs : list row) (r : row) :
  find a rs = Some r ->
  find a (do_update a v rs) = Some (mk_row (id r) (wallet_address r) v).
Proof.
  induction rs as [|x rs IH]; simpl; [discriminate|].
  destruct (PyStr.eqb (wallet_address x) a) eqn:E; simpl.
  - intros H. inversion H; subst. now rewrite E.
  - rewrite E. exact IH.
Qed.

Lemma find_app_none (a : str) (rs tl : list row) :
  find a rs = None -> find a (rs ++ tl) = find a tl.
Proof.
  induction rs as [|x rs IH]; simpl; [reflexivity|].
  destruct (PyStr.eqb (wallet_address x) a); [discriminate | exact IH].
Qed.

Lemma do_update_app_none (a : str) (v : Z) (rs tl : list row) :
  find a rs = None -> do_update a v (rs ++ tl) = rs ++ do_update a v tl.
Proof.
  induction rs as [|x rs IH]; simpl; [reflexivity|].
  destruct (PyStr.eqb (wallet_address x) a); [discriminate|].
  intros H. now rewrite IH.
Qed.

Lemma do_update_twice (a : str) (v v' : Z) (rs : list row) :
  do_update a v (do_update a v' rs) = do_update a v rs.
Proof.
  induction rs as [|x rs IH]; simpl; [reflexivity|].
  destruct (PyStr.eqb (wallet_address x) a) eqn:E; simpl; rewrite E.
  - reflexivity.
  - now rewrite IH.
Qed.

Lemma max_rowid_bound (rs : list row) (r : row) :
  In r rs -> (id r <= max_rowid rs)%Z.
Proof.
  induction rs as [|x rs IH]; simpl; [tauto|].
  intros [E|Hin]; [subst; lia|]. specialize (IH Hin). lia.
Qed.

Lemma max_rowid_nonneg (rs : list row) : (0 <= max_rowid rs)%Z.
Proof. induction rs; simpl; lia. Qed.

Lemma new_rowid_above_mark (t : table) : (sqlite_sequence t < new_rowid t)%Z.
Proof. unfold new_rowid. lia. Qed.

Lemma new_rowid_above_rows (t : table) (r : row) :
  In r (rows t) -> (id r < new_rowid t)%Z.
Proof. intros H. apply max_rowid_bound in H. unfold new_rowid. lia. Qed.

Lemma new_rowid_positive (t : table) : (0 < new_rowid t)%Z.
Proof. pose proof (max_rowid_nonneg (rows t)). unfold new_rowid. lia. Qed.

Lemma ascending_snoc (lo x : Z) (ids : list Z) :
  ascending lo ids -> (lo < x)%Z -> (forall i, In i ids -> (i < x)%Z) ->
  ascending lo (ids ++ [x]).
Proof.
  revert lo; induction ids as [|i ids IH]; simpl; intros lo Hasc Hlo Hall.
  - auto.
  - destruct Hasc as [Hi Hasc]. split; [exact Hi|].
    apply IH; auto.
Qed.

(** What one statement does to the identities: the old ones stay where
    they are, at most one is added, with a rowid above the mark. *)
Lemma upsert_identity (a : str) (v v' : Z) (t : table) :
  exists added,
    List.map identity (rows (upsert a v v' t)) =
      List.map identity (rows t) ++ List.map identity added /\
    Forall (fun r => (sqlite_sequence t < id r)%Z) added.
Proof.
  unfold upsert. simpl. destruct (find a (rows t)) eqn:E.
  - exists []. rewrite do_update_identity, app_nil_r. auto.
  - exists [mk_row (new_rowid t) a v]. rewrite map_app. split; [reflexivity|].
    constructor; [|constructor]. simpl. apply new_rowid_above_mark.
Qed.

Lemma upsert_mark (a : str) (v v' : Z) (t : table) :
  (sqlite_sequence t < sqlite_sequence (upsert a v v' t))%Z.
Proof. simpl. apply new_rowid_above_mark. Qed.

Lemma upsert_consistent (a : str) (v v' : Z) (t : table) :
  consistent t -> consistent (upsert a v v' t).
Proof.
  intros [Hu Ha Hm]. unfold unique_addresses in Hu.
  unfold upsert. destruct (find a (rows t)) as [hit|] eqn:E; constructor;
    unfold unique_addresses; simpl.
  - now rewrite map_address_identity, do_update_identity, <- map_address_identity.
  - now rewrite map_id_identity, do_update_identity, <- map_id_identity.
  - apply Forall_forall. intros r Hr.
    assert (In (id r) (List.map id (do_update a v' (rows t)))) as Hid
        by now apply in_map.
    rewrite map_id_identity, do_update_identity, <- map_id_identity in Hid.
    apply in_map_iff in Hid as [r0 [E0 Hr0]].
    apply new_rowid_above_rows in Hr0. lia.
  - rewrite map_app. simpl. apply NoDup_app.
    + exact Hu.
    + constructor; [simpl; tauto | constructor].
    + intros x Hx [Hx'|[]]. subst x. now apply find_none in E.
  - rewrite map_app. simpl. apply ascending_snoc.
    + exact Ha.
    + apply new_rowid_positive.
    + intros i Hi. apply in_map_iff in Hi as [r [<- Hr]].
      now apply new_rowid_above_rows.
  - apply Forall_app. split.
    + apply Forall_forall. intros r Hr.
      apply new_rowid_above_rows in Hr. lia.
    + constructor; [simpl; lia | constructor].
Qed.

(** After the statement the address has a record, and it holds the
    value just written. *)
Lemma find_upsert (a : str) (v : Z) (t : table) :
  exists r, find a (rows (upsert a v v t)) = Some r /\
            wallet_address r = a /\ has_nft r = v.
Proof.
  unfold upsert. simpl. destruct (find a (rows t)) as [r0|] eqn:E.
  - rewrite (find_do_update a v _ _ E). eexists; split; [reflexivity|].
    simpl. split; [|reflexivity]. now apply find_some in E.
  - rewrite (find_app_none a _ _ E). simpl. rewrite eqb_refl.
    eexists; split; [reflexivity|]. auto.
Qed.

Lemma count_absent (a : str) (rs : list row) :
  ~ In a (List.map wallet_address rs) ->
  filter (fun r => PyStr.eqb (wallet_address r) a) rs = [].
Proof.
  induction rs as [|x rs IH]; simpl; [reflexivity|].
  intros H. destruct (PyStr.eqb (wallet_address x) a) eqn:E.
  - apply eqb_eq in E. tauto.
  - apply IH. tauto.
Qed.

Lemma count_unique (a : str) (t : table) (r : row) :
  unique_addresses t -> find a (rows t) = Some r -> count a t = 1%nat.
Proof.
  unfold unique_addresses, count. generalize (rows t) as rs.
  induction rs as [|x rs IH]; simpl; [discriminate|].
  intros Hnd. inversion Hnd as [|? ? Hx Hnd']; subst.
  destruct (PyStr.eqb (wallet_address x) a) eqn:E.
  - intros _. apply eqb_eq in E. subst a.
    simpl. now rewrite (count_absent _ _ Hx).
  - intros H. now apply IH.
Qed.

(** Writing the same value again changes no row. *)
Lemma upsert_again_rows (a : str) (v : Z) (t : table) :
  rows (upsert a v v (upsert a v v t)) = rows (upsert a v v t).
Proof.
  destruct (find_upsert a v t) as [r [Hr [Ha Hv]]].
  unfold upsert at 1. cbn [rows]. rewrite Hr.
  unfold upsert. cbn [rows]. destruct (find a (rows t)) eqn:E.
  - apply do_update_twice.
  - rewrite (do_update_app_none a v _ _ E). simpl. now rewrite eqb_refl.
Qed.

Lemma upsert_preserves_bits (a : str) (b b' : bool) (t : table) :
  bit_valued t -> bit_valued (upsert a (int b) (int b') t).
Proof.
  unfold bit_valued, upsert. simpl. intros H.
  destruct (find a (rows t)) eqn:E.
  - clear E. induction (rows t) as [|x rs IH]; simpl; [constructor|].
    inversion H; subst.
    destruct (PyStr.eqb (wallet_address x) a).
    + constructor; [|assumption]. simpl. destruct b'; auto.
    + constructor; auto.
  - apply Forall_app. split; [exact H|].
    constructor; [|constructor]. simpl. destruct b; auto.
Qed.

End WalletsFacts.

(* ================================================================== *)
(** ** [save_wallet] *)
(* ================================================================== *)

Lemma save_wallet_healthy (e : env) (a : str) (b : bool) (w : world) :
  sqlite e = Healthy ->
  save_wallet e a b w =
    (Return tt, set_db (Wallets.upsert a (int b) (int b) (db w)) w).
Proof. intros H. unfold save_wallet. now rewrite H. Qed.

(** A statement or a commit that raises is caught and logged. *)
Lemma save_wallet_write_fails (e : env) (a : str) (b : bool) (w : world) :
  sqlite e = ExecuteFails \/ sqlite e = CommitFails ->
  save_wallet e a b w = (Return tt, logging ErrorSaving w).
Proof. intros [H|H]; unfold save_wallet; now rewrite H. Qed.

(** When [connect] itself raises, [finally] reads a name never bound. *)
Lemma save_wallet_connect_fails (e : env) (a : str) (b : bool) (w : world) :
  sqlite e = ConnectFails ->
  save_wallet e a b w = (Raise UnboundLocalError, logging ErrorSaving w).
Proof. intros H. unfold save_wallet. now rewrite H. Qed.

(** A [UnicodeEncodeError] of the statement is no [sqlite3.Error]: it is
    not caught, and leaves through [finally]. *)
Lemma save_wallet_bind_fails (e : env) (a : str) (b : bool) (w : world) :
  sqlite e = BindFails ->
  save_wallet e a b w = (Raise UnicodeEncodeError, w).
Proof. intros H. unfold save_wallet. now rewrite H. Qed.

Lemma save_wallet_db (e : env) (a : str) (b : bool) (w : world) :
  db (snd (save_wallet e a b w)) =
    match sqlite e with
    | Healthy => Wallets.upsert a (int b) (int b) (db w)
    | _ => db w
    end.
Proof. unfold save_wallet. destruct (sqlite e); reflexivity. Qed.

Lemma save_wallet_frame (e : env) (a : str) (b : bool) (w : world) :
  outbox (snd (save_wallet e a b w)) = outbox w /\
  net_calls (snd (save_wallet e a b w)) = net_calls w.
Proof. unfold save_wallet. destruct (sqlite e); auto. Qed.

Lemma upsert_unique (a : str) (v v' : Z) (t : Wallets.table) :
  unique_addresses t -> unique_addresses (Wallets.upsert a v v' t).
Proof.
  unfold unique_addresses, Wallets.upsert. simpl. intros Hu.
  destruct (Wallets.find a (Wallets.rows t)) eqn:E.
  - now rewrite WalletsFacts.map_address_identity, WalletsFacts.do_update_identity,
      <- WalletsFacts.map_address_identity.
  - rewrite map_app. simpl. apply NoDup_app.
    + exact Hu.
    + constructor; [simpl; tauto | constructor].
    + intros x Hx [Hx'|[]]. subst x. now apply WalletsFacts.find_none in E.
Qed.

Lemma ascending_above (lo : Z) (ids : list Z) :
  ascending lo ids -> forall i, In i ids -> (lo < i)%Z.
Proof.
  revert lo; induction ids as [|x ids IH]; simpl; intros lo H i Hi; [tauto|].
  destruct H as [Hx Hasc]. destruct Hi as [<-|Hi]; [exact Hx|].
  specialize (IH x Hasc i Hi). lia.
Qed.

Lemma ascending_NoDup (lo : Z) (ids : list Z) : ascending lo ids -> NoDup ids.
Proof.
  revert lo; induction ids as [|x ids IH]; simpl; intros lo H; constructor.
  - intros Hin. destruct H as [_ Hasc].
    pose proof (ascending_above x ids Hasc x Hin). lia.
  - destruct H as [_ Hasc]. exact (IH x Hasc).
Qed.

Lemma create_consistent : consistent Wallets.create.
Proof. constructor; unfold unique_addresses; simpl; constructor. Qed.

(** One call keeps the table consistent, whatever the store does. *)
Lemma save_wallet_consistent (e : env) (a : str) (b : bool) (w : world) :
  consistent (db w) -> consistent (db (snd (save_wallet e a b w))).
Proof.
  intros H. rewrite save_wallet_db.
  destruct (sqlite e); auto using WalletsFacts.upsert_consistent.
Qed.

Lemma save_wallet_identity (e : env) (a : str) (b : bool) (w : world) :
  exists added,
    List.map identity (Wallets.rows (db (snd (save_wallet e a b w)))) =
      List.map identity (Wallets.rows (db w)) ++ List.map identity added /\
    Forall (fun r => (Wallets.sqlite_sequence (db w) < Wallets.id r)%Z) added /\
    (Wallets.sqlite_sequence (db w) <=
     Wallets.sqlite_sequence (db (snd (save_wallet e a b w))))%Z.
Proof.
  rewrite save_wallet_db.
  destruct (sqlite e);
    try (exists []; rewrite app_nil_r; repeat split; [constructor | lia]).
  destruct (WalletsFacts.upsert_identity a (int b) (int b) (db w))
    as [added [E F]].
  exists added. repeat split; auto.
  pose proof (WalletsFacts.upsert_mark a (int b) (int b) (db w)). lia.
Qed.

Lemma run_saves_consistent (calls : list (env * str * bool)) (w : world) :
  consistent (db w) -> consistent (db (run_saves calls w)).
Proof.
  revert w; induction calls as [|[[e a] b] calls IH]; intros w H; simpl.
  - exact H.
  - apply IH. now apply save_wallet_consistent.
Qed.

Lemma run_saves_identity (calls : list (env * str * bool)) (w : world) :
  exists added,
    List.map identity (Wallets.rows (db (run_saves calls w))) =
      List.map identity (Wallets.rows (db w)) ++ List.map identity added /\
    Forall (fun r => (Wallets.sqlite_sequence (db w) < Wallets.id r)%Z) added /\
    (Wallets.sqlite_sequence (db w) <=
     Wallets.sqlite_sequence (db (run_saves calls w)))%Z.
Proof.
  revert w; induction calls as [|[[e a] b] calls IH]; intros w; simpl.
  - exists []. rewrite app_nil_r. repeat split; [constructor | lia].
  - destruct (save_wallet_identity e a b w) as [added1 [E1 [F1 M1]]].
    destruct (IH (snd (save_wallet e a b w))) as [added2 [E2 [F2 M2]]].
    exists (added1 ++ added2). repeat split.
    + now rewrite E2, E1, map_app, app_assoc.
    + apply Forall_app. split; [exact F1|].
      eapply Forall_impl; [|exact F2]. simpl. intros r Hr. lia.
    + lia.
Qed.

Lemma run_saves_bits (calls : list (env * str * bool)) (w : world) :
  bit_valued (db w) -> bit_valued (db (run_saves calls w)).
Proof.
  revert w; induction calls as [|[[e a] b] calls IH]; intros w H; simpl.
  - exact H.
  - apply IH. rewrite save_wallet_db.
    destruct (sqlite e); auto using WalletsFacts.upsert_preserves_bits.
Qed.

(* ================================================================== *)
(** ** [check_wallet] *)
(* ================================================================== *)

Lemma check_wallet_rejects (e : env) (text : str) (w : world) :
  valid_length (strip text) = false ->
  check_wallet e text w = (Return tt, reply_text MsgInvalidAddress w).
Proof.
  intros H. unfold check_wallet. rewrite guard_valid_length, H. reflexivity.
Qed.

(** Past the guard: the in-progress notice goes out and [check_nft] runs
    on the stripped text. *)
Lemma check_wallet_accepts (e : env) (text : str) (w : world) :
  valid_length (strip text) = true ->
  check_wallet e text w =
    (let a := strip text in
     let '(queried, w1) := check_nft e a (reply_text (MsgChecking a) w) in
     match queried with
     | Raise ex => (Raise ex, w1)
     | Return has_nft =>
         let '(saved, w2) := save_wallet e a has_nft w1 in
         match saved with
         | Raise ex => (Raise ex, w2)
         | Return _ => (Return tt, reply_text (decision_of has_nft) w2)
         end
     end).
Proof.
  intros H. unfold check_wallet. rewrite guard_valid_length, H. simpl.
  run_handler.
  destruct (check_nft e (strip text) (reply_text (MsgChecking (strip text)) w))
    as [[has_nft|ex] w1]; [|reflexivity].
  destruct (save_wallet e (strip text) has_nft w1) as [[[]|ex] w2];
    [|reflexivity].
  destruct has_nft; reflexivity.
Qed.

Lemma check_wallet_query_raises (e : env) (text : str) (w : world) (ex : exn) :
  valid_length (strip text) = true ->
  fst (check_nft e (strip text) w) = Raise ex ->
  fst (check_wallet e text w) = Raise ex /\
  outbox (snd (check_wallet e text w)) = outbox w ++ [MsgChecking (strip text)] /\
  db (snd (check_wallet e text w)) = db w.
Proof.
  intros Hv Hq. rewrite (check_wallet_accepts e text w Hv). cbv zeta.
  rewrite (check_nft_value e (strip text) w
             (reply_text (MsgChecking (strip text)) w)) in Hq.
  destruct (check_nft_frame e (strip text)
              (reply_text (MsgChecking (strip text)) w)) as [Ho [_ Hd]].
  destruct (check_nft e (strip text) (reply_text (MsgChecking (strip text)) w))
    as [queried w1]. simpl in *. subst queried. simpl. auto.
Qed.

Lemma check_wallet_reports (e : env) (text : str) (w : world) (b : bool) :
  valid_length (strip text) = true ->
  fst (check_nft e (strip text) w) = Return b ->
  sqlite e <> ConnectFails ->
  sqlite e <> BindFails ->
  fst (check_wallet e text w) = Return tt /\
  outbox (snd (check_wallet e text w)) =
    outbox w ++ [MsgChecking (strip text); decision_of b] /\
  net_calls (snd (check_wallet e text w)) =
    net_calls w ++ [payload e (strip text)] /\
  db (snd (check_wallet e text w)) =
    match sqlite e with
    | Healthy => Wallets.upsert (strip text) (int b) (int b) (db w)
    | _ => db w
    end.
Proof.
  intros Hv Hq Hs Hb. rewrite (check_wallet_accepts e text w Hv). cbv zeta.
  rewrite (check_nft_value e (strip text) w
             (reply_text (MsgChecking (strip text)) w)) in Hq.
  destruct (check_nft_frame e (strip text)
              (reply_text (MsgChecking (strip text)) w)) as [Ho [Hn Hd]].
  destruct (check_nft e (strip text) (reply_text (MsgChecking (strip text)) w))
    as [queried w1]. simpl in *. subst queried.
  pose proof (save_wallet_db e (strip text) b w1) as Sd.
  destruct (save_wallet_frame e (strip text) b w1) as [So Sn].
  unfold save_wallet in *.
  destruct (sqlite e); try congruence; simpl in *;
    rewrite ?Ho, ?Hn, ?Hd, <- ?app_assoc; auto.
Qed.

Lemma check_wallet_store_unopened (e : env) (text : str) (w : world) (b : bool) :
  valid_length (strip text) = true ->
  fst (check_nft e (strip text) w) = Return b ->
  sqlite e = ConnectFails ->
  fst (check_wallet e text w) = Raise UnboundLocalError /\
  outbox (snd (check_wallet e text w)) = outbox w ++ [MsgChecking (strip text)] /\
  db (snd (check_wallet e text w)) = db w.
Proof.
  intros Hv Hq Hs. rewrite (check_wallet_accepts e text w Hv). cbv zeta.
  rewrite (check_nft_value e (strip text) w
             (reply_text (MsgChecking (strip text)) w)) in Hq.
  destruct (check_nft_frame e (strip text)
              (reply_text (MsgChecking (strip text)) w)) as [Ho [Hn Hd]].
  destruct (check_nft e (strip text) (reply_text (MsgChecking (strip text)) w))
    as [queried w1]. simpl in *. subst queried.
  rewrite (save_wallet_connect_fails e (strip text) b w1 Hs). simpl. auto.
Qed.

Lemma check_wallet_bind_fails (e : env) (text : str) (w : world) (b : bool) :
  valid_length (strip text) = true ->
  fst (check_nft e (strip text) w) = Return b ->
  sqlite e = BindFails ->
  fst (check_wallet e text w) = Raise UnicodeEncodeError /\
  outbox (snd (check_wallet e text w)) = outbox w ++ [MsgChecking (strip text)] /\
  net_calls (snd (check_wallet e text w)) =
    net_calls w ++ [payload e (strip text)] /\
  db (snd (check_wallet e text w)) = db w.
Proof.
  intros Hv Hq Hs. rewrite (check_wallet_accepts e text w Hv). cbv zeta.
  rewrite (check_nft_value e (strip text) w
             (reply_text (MsgChecking (strip text)) w)) in Hq.
  destruct (check_nft_frame e (strip text)
              (reply_text (MsgChecking (strip text)) w)) as [Ho [Hn Hd]].
  destruct (check_nft e (strip text) (reply_text (MsgChecking (strip text)) w))
    as [queried w1]. simpl in *. subst queried.
  rewrite (save_wallet_bind_fails e (strip text) b w1 Hs). simpl. auto.
Qed.

(** Whatever happens past the guard, the one query has been issued for the
    stripped text and the in-progress notice names it. *)
Lemma check_wallet_queries_stripped (e : env) (text : str) (w : world) :
  valid_length (strip text) = true ->
  net_calls (snd (check_wallet e text w)) =
    net_calls w ++ [payload e (strip text)] /\
  exists rest,
    outbox (snd (check_wallet e text w)) =
      outbox w ++ MsgChecking (strip text) :: rest.
Proof.
  intros Hv.
  destruct (fst (check_nft e (strip text) w)) as [b|ex] eqn:Hq.
  - destruct (sqlite e) eqn:Hs.
    1,3,4: assert (sqlite e <> ConnectFails) as Hne by congruence;
      assert (sqlite e <> BindFails) as Hnb by congruence;
      destruct (check_wallet_reports e text w b Hv Hq Hne Hnb) as [_ [Ho [Hn _]]];
      split; [exact Hn | eexists; exact Ho].
    2: { destruct (check_wallet_bind_fails e text w b Hv Hq Hs) as [_ [Ho [Hn _]]].
         split; [exact Hn | exists []; exact Ho]. }
    rewrite (check_wallet_accepts e text w Hv). cbv zeta.
    rewrite (check_nft_value e (strip text) w
               (reply_text (MsgChecking (strip text)) w)) in Hq.
    destruct (check_nft_frame e (strip text)
                (reply_text (MsgChecking (strip text)) w)) as [Ho [Hn Hd]].
    destruct (check_nft e (strip text) (reply_text (MsgChecking (strip text)) w))
      as [queried w1]. simpl in *. subst queried.
    rewrite (save_wallet_connect_fails e (strip text) b w1 Hs). simpl.
    split; [exact Hn | exists []; exact Ho].
  - rewrite (check_wallet_accepts e text w Hv). cbv zeta.
    rewrite (check_nft_value e (strip text) w
               (reply_text (MsgChecking (strip text)) w)) in Hq.
    destruct (check_nft_frame e (strip text)
                (reply_text (MsgChecking (strip text)) w)) as [Ho [Hn Hd]].
    destruct (check_nft e (strip text) (reply_text (MsgChecking (strip text)) w))
      as [queried w1]. simpl in *. subst queried. simpl.
    split; [exact Hn | exists []; exact Ho].
Qed.

(* ================================================================== *)
(** ** Membership decision *)
(* ================================================================== *)

(** C1.  On an asset list as the remote service documents it, and for
    every configured collection identifier, the scan of [check_nft]
    returns [True] exactly when some asset carries a grouping entry whose
    [group_key] is the string "collection" and whose [group_value] is the
    identifier itself (equality of the two strings, nothing folded or
    trimmed), and on any parsed list at all an answer the scan returns is
    that one; it returns [False] on the empty list and on a list without a
    matching tag; assets and tags are visited in the order received and
    the scan answers [True] at the first match, whatever follows it; and
    this scan is the value of [check_nft] on a 200 answer carrying
    [result.items]. *)
Theorem membership_decision_correct (cid : str) :
  (forall nfts,
      forallb well_formed_asset nfts = true ->
      exists b, membership_decision (Some cid) nfts = Return b /\
                (b = true <-> exists nft, In nft nfts /\ carries cid nft))
  /\ (forall nfts b,
         membership_decision (Some cid) nfts = Return b ->
         (b = true <-> exists nft, In nft nfts /\ carries cid nft))
  /\ membership_decision (Some cid) [] = Return false
  /\ (forall nfts,
         forallb well_formed_asset nfts = true ->
         (forall nft, In nft nfts -> ~ carries cid nft) ->
         membership_decision (Some cid) nfts = Return false)
  /\ (forall before kvs tags tag tags' after,
         forallb well_formed_asset before = true ->
         assoc (py "grouping") kvs = Some (JArray (tags ++ tag :: tags')) ->
         forallb well_formed_group tags = true ->
         tag_matches cid tag ->
         membership_decision (Some cid) (before ++ JObject kvs :: after)
           = Return true)
  /\ (forall e a w r data result nfts,
         COLLECTION_ID e = Some cid ->
         requests_post e (payload e a) = Return r ->
         status_code r = 200%Z ->
         body r = Some data ->
         getitem data (py "result") = Return result ->
         getitem result (py "items") = Return (JArray nfts) ->
         fst (check_nft e a w) = membership_decision (Some cid) nfts).
Proof.
  split; [|split; [|split; [|split; [|split]]]].
  - apply membership_decision_well_formed.
  - apply membership_decision_sound.
  - reflexivity.
  - intros nfts Hwf Hnone.
    destruct (membership_decision_well_formed cid nfts Hwf) as [b [Hb Hiff]].
    rewrite Hb. destruct b; [|reflexivity].
    destruct (proj1 Hiff eq_refl) as [nft [Hin Hc]].
    now destruct (Hnone nft Hin).
  - intros before kvs tags tag tags' after Hbefore Hg Htags Htag.
    unfold membership_decision. apply first_hit_stops.
    + intros y Hy.
      destruct (nft_test_well_formed cid y) as [b [Hb _]]; [|now exists b].
      revert y Hy. now apply forallb_forall.
    + exact (nft_test_first_tag cid kvs tags tags' tag Hg Htags Htag).
  - intros e a w r data result nfts Hc Hpost Hst Hbody Hres Hitems.
    rewrite <- Hc. exact (check_nft_scans e a w r data result nfts Hpost Hst Hbody Hres Hitems).
Qed.

Lemma membership_decision_correct_witness :
  (exists b,
      membership_decision (Some Sample.collection) Sample.holdings = Return b /\
      (b = true <->
       exists nft, In nft Sample.holdings /\ carries Sample.collection nft))
  /\ membership_decision (Some (py "none"))
       [Sample.bare_asset (py "a1");
        Sample.asset (py "a3") [Sample.tag (py "collection") (py "other")]]
     = Return false
  /\ membership_decision (Some Sample.collection) (Sample.holdings ++ [JInt 5])
     = Return true
  /\ fst (check_nft (Sample.env_of (Sample.ok Sample.holdings) Healthy)
            Sample.address Sample.fresh)
     = membership_decision (Some Sample.collection) Sample.holdings
  /\ (true = true <->
      exists nft, In nft (Sample.holdings ++ [JInt 5]) /\
                  carries Sample.collection nft).
Proof.
  split; [|split; [|split; [|split]]];
    [| | | |
     apply (proj1 (proj2 (membership_decision_correct Sample.collection))
              (Sample.holdings ++ [JInt 5]) true); reflexivity].
  - apply (proj1 (membership_decision_correct Sample.collection)).
    reflexivity.
  - apply (proj1 (proj2 (proj2 (proj2 (membership_decision_correct (py "none")))))).
    + reflexivity.
    + intros nft [E|[E|[]]] [groups [group [Hg [Hin [Hk Hv]]]]]; subst nft.
      * discriminate Hg.
      * inversion Hg; subst groups. destruct Hin as [E|[]]. subst group.
        discriminate Hv.
  - apply (proj1 (proj2 (proj2 (proj2 (proj2
             (membership_decision_correct Sample.collection)))))
             [Sample.bare_asset (py "a1")]
             [(py "id", JStr (py "a2"));
              (py "grouping",
               JArray [Sample.tag (py "creator") Sample.collection;
                       Sample.tag (py "collection") Sample.collection])]
             [Sample.tag (py "creator") Sample.collection]
             (Sample.tag (py "collection") Sample.collection)
             []
             [Sample.asset (py "a3") [Sample.tag (py "collection") (py "other")];
              JInt 5]).
    + reflexivity.
    + reflexivity.
    + reflexivity.
    + split; reflexivity.
  - apply (proj2 (proj2 (proj2 (proj2 (proj2
             (membership_decision_correct Sample.collection)))))
             (Sample.env_of (Sample.ok Sample.holdings) Healthy)
             Sample.address Sample.fresh
             (Sample.ok Sample.holdings)
             (Sample.envelope Sample.holdings)
             (JObject [(py "total", JInt 3); (py "items", JArray Sample.holdings)]));
      reflexivity.
Defined.

(** The comparison folds nothing: a value differing only in case, or only
    by a trailing blank, is no match. *)
Example membership_decision_exact :
  membership_decision (Some (py "Abc"))
    [Sample.asset (py "a") [Sample.tag (py "collection") (py "abc");
                            Sample.tag (py "collection") (py "Abc ");
                            Sample.tag (py "Collection") (py "Abc")]]
  = Return false.
Proof. reflexivity. Qed.

(* ================================================================== *)
(** ** Fail-soft query *)
(* ================================================================== *)

(** C2, as stated, fails: on a 200 answer whose body is not JSON,
    [response.json()] raises and [check_nft] passes the error on. *)
Lemma check_nft_garbled_body_raises :
  malformed_body Sample.garbled /\
  check_nft (Sample.env_of Sample.garbled Healthy) Sample.address Sample.fresh
    = (Raise JSONDecodeError,
       record_call (payload (Sample.env_of Sample.garbled Healthy) Sample.address)
                   Sample.fresh) /\
  ~ fail_soft_everywhere.
Proof.
  split; [reflexivity|]. split; [reflexivity|].
  intros H.
  specialize (H (Sample.env_of Sample.garbled Healthy) Sample.address
                Sample.fresh Sample.garbled eq_refl
                (or_intror (or_intror eq_refl))).
  discriminate H.
Qed.

(** C2, amended.  For every address: when the remote answers with a status
    other than 200, or with status 200 and a JSON object that has no
    [result] member, or whose [result] is an object with no [items]
    member, [check_nft] returns [False] without raising, having done
    nothing but its one network call; that is the value it has on an empty
    item list, and the verification then reports "no NFT" when
    [save_wallet] returns.  A 200 answer whose body is not JSON is not
    absorbed: the decoding error reaches the caller. *)
Theorem check_nft_fail_soft (e : env) (a : str) (w : world) (r : response) :
  requests_post e (payload e a) = Return r ->
  (non_success r \/ missing_fields r ->
   check_nft e a w = (Return false, record_call (payload e a) w)
   /\ (forall e' r' data result,
          requests_post e' (payload e' a) = Return r' ->
          status_code r' = 200%Z ->
          body r' = Some data ->
          getitem data (py "result") = Return result ->
          getitem result (py "items") = Return (JArray []) ->
          fst (check_nft e' a w) = fst (check_nft e a w))
   /\ (forall text,
          strip text = a -> valid_length a = true ->
          sqlite e <> ConnectFails -> sqlite e <> BindFails ->
          fst (check_wallet e text w) = Return tt /\
          outbox (snd (check_wallet e text w)) =
            outbox w ++ [MsgChecking a; MsgNoNft]))
  /\ (status_code r = 200%Z -> malformed_body r ->
      check_nft e a w = (Raise JSONDecodeError, record_call (payload e a) w)).
Proof.
  intros Hpost.
  assert (non_success r \/ missing_fields r ->
          check_nft e a w = (Return false, record_call (payload e a) w)) as Hsoft.
  { intros [Hns | [kvs [Hbody Hmiss]]].
    - exact (check_nft_non_200 e a w r Hpost Hns).
    - destruct (Z.eq_dec (status_code r) 200) as [Hst|Hst].
      + destruct Hmiss as [Hres | [kvs' [Hres Hitems]]].
        * exact (check_nft_no_result e a w r kvs Hpost Hst Hbody Hres).
        * exact (check_nft_no_items e a w r kvs kvs' Hpost Hst Hbody Hres Hitems).
      + exact (check_nft_non_200 e a w r Hpost Hst). }
  split.
  - intros Hcase. split; [exact (Hsoft Hcase)|]. split.
    + intros e' r' data result Hpost' Hst Hbody Hres Hitems.
      rewrite (Hsoft Hcase). simpl.
      exact (check_nft_empty_items e' a w r' data result Hpost' Hst Hbody Hres Hitems).
    + intros text Htext Hv Hs Hb. subst a.
      destruct (check_wallet_reports e text w false Hv) as [Hr [Ho _]]; auto.
      now rewrite (Hsoft Hcase).
  - intros Hst Hbody. exact (check_nft_malformed_body e a w r Hpost Hst Hbody).
Qed.

Lemma check_nft_fail_soft_witness :
  (check_nft (Sample.env_of Sample.http_500 Healthy) Sample.address Sample.fresh
     = (Return false,
        record_call (payload (Sample.env_of Sample.http_500 Healthy) Sample.address)
                    Sample.fresh)
   /\ fst (check_nft (Sample.env_of (Sample.ok []) Healthy)
              Sample.address Sample.fresh)
      = fst (check_nft (Sample.env_of Sample.http_500 Healthy)
               Sample.address Sample.fresh)
   /\ fst (check_wallet (Sample.env_of Sample.http_500 Healthy)
              Sample.padded Sample.fresh) = Return tt
   /\ outbox (snd (check_wallet (Sample.env_of Sample.http_500 Healthy)
                      Sample.padded Sample.fresh))
      = outbox Sample.fresh ++ [MsgChecking Sample.address; MsgNoNft])
  /\ check_nft (Sample.env_of Sample.garbled Healthy) Sample.address Sample.fresh
     = (Raise JSONDecodeError,
        record_call (payload (Sample.env_of Sample.garbled Healthy) Sample.address)
                    Sample.fresh).
Proof.
  split.
  - destruct (proj1 (check_nft_fail_soft
                       (Sample.env_of Sample.http_500 Healthy) Sample.address
                       Sample.fresh Sample.http_500 eq_refl))
      as [Hsoft [Hempty Hreport]].
    { left. unfold non_success. simpl. lia. }
    split; [exact Hsoft|]. split.
    + apply (Hempty (Sample.env_of (Sample.ok []) Healthy) (Sample.ok [])
                    (Sample.envelope [])
                    (JObject [(py "total", JInt 0); (py "items", JArray [])]));
        reflexivity.
    + apply (Hreport Sample.padded).
      * reflexivity.
      * reflexivity.
      * simpl. discriminate.
      * simpl. discriminate.
  - apply (proj2 (check_nft_fail_soft
                    (Sample.env_of Sample.garbled Healthy) Sample.address
                    Sample.fresh Sample.garbled eq_refl));
      reflexivity.
Defined.

(** A JSON-RPC error answer (status 200, no [result]) degrades as well. *)
Example check_nft_rpc_error_answer :
  check_nft (Sample.env_of (mk_response 200 (Some (JObject [(py "error", JNull)])))
                           Healthy) Sample.address Sample.fresh
  = (Return false,
     record_call
       (payload (Sample.env_of (mk_response 200 (Some (JObject [(py "error", JNull)])))
                               Healthy) Sample.address)
       Sample.fresh).
Proof. reflexivity. Qed.

(* ================================================================== *)
(** ** Validation *)
(* ================================================================== *)

(** C3.  The length guard of [check_wallet] accepts a string exactly when
    its length lies in the closed range 32..44, whatever its characters;
    when the guarded string is shorter than 32 or longer than 44 the
    handler replies with the rejection notice and does nothing else: no
    network call, no log record, no change to the store; a text shorter
    than 32 as typed is always in that case.  Inside the range the query
    is issued. *)
Theorem validator_length_guard :
  (forall s, valid_length s = true <-> (32 <= PyStr.len s <= 44)%Z)
  /\ (forall s s', List.length s = List.length s' ->
                   valid_length s = valid_length s')
  /\ (forall e text w,
         (PyStr.len (strip text) < 32 \/ PyStr.len (strip text) > 44)%Z ->
         check_wallet e text w = (Return tt, reply_text MsgInvalidAddress w) /\
         outbox (snd (check_wallet e text w)) = outbox w ++ [MsgInvalidAddress] /\
         net_calls (snd (check_wallet e text w)) = net_calls w /\
         log (snd (check_wallet e text w)) = log w /\
         db (snd (check_wallet e text w)) = db w)
  /\ (forall e text w,
         (PyStr.len text < 32)%Z ->
         check_wallet e text w = (Return tt, reply_text MsgInvalidAddress w))
  /\ (forall e text w,
         (32 <= PyStr.len (strip text) <= 44)%Z ->
         net_calls (snd (check_wallet e text w)) =
           net_calls w ++ [payload e (strip text)]).
Proof.
  split; [exact valid_length_iff|]. split; [|split; [|split]].
  - intros s s' H. unfold valid_length, PyStr.len. now rewrite H.
  - intros e text w H.
    assert (valid_length (strip text) = false) as Hv.
    { destruct (valid_length (strip text)) eqn:E; [|reflexivity].
      apply valid_length_iff in E. lia. }
    rewrite (check_wallet_rejects e text w Hv). simpl. auto.
  - intros e text w H. apply check_wallet_rejects.
    destruct (valid_length (strip text)) eqn:E; [|reflexivity].
    apply valid_length_iff in E. pose proof (strip_len text). lia.
  - intros e text w H. apply valid_length_iff in H.
    exact (proj1 (check_wallet_queries_stripped e text w H)).
Qed.

Lemma validator_length_guard_witness :
  (check_wallet (Sample.env_of (Sample.ok Sample.holdings) Healthy)
     (py "short") Sample.fresh
   = (Return tt, reply_text MsgInvalidAddress Sample.fresh))
  /\ valid_length (py "................................") =
     valid_length (py "Gh9ZwEmdLJ8DscKNTkTqPbNwLNNBjuSz")
  /\ (check_wallet (Sample.env_of Sample.http_500 ConnectFails)
        Sample.short_padded Sample.fresh
      = (Return tt, reply_text MsgInvalidAddress Sample.fresh))
  /\ (check_wallet (Sample.env_of Sample.garbled CommitFails)
        (py "   ") Sample.fresh
      = (Return tt, reply_text MsgInvalidAddress Sample.fresh))
  /\ net_calls (snd (check_wallet (Sample.env_of (Sample.ok Sample.holdings) Healthy)
                       Sample.address Sample.fresh))
     = net_calls Sample.fresh ++
       [payload (Sample.env_of (Sample.ok Sample.holdings) Healthy) Sample.address].
Proof.
  destruct validator_length_guard as [_ [Hsame [Hreject [Hshort Haccept]]]].
  split; [|split; [|split; [|split]]].
  - apply (Hreject (Sample.env_of (Sample.ok Sample.holdings) Healthy)
                   (py "short") Sample.fresh).
    left. vm_compute. reflexivity.
  - apply Hsame. reflexivity.
  - apply (proj1 (Hreject (Sample.env_of Sample.http_500 ConnectFails)
                          Sample.short_padded Sample.fresh
                          (or_introl eq_refl))).
  - apply (Hshort (Sample.env_of Sample.garbled CommitFails)
                  (py "   ") Sample.fresh).
    reflexivity.
  - apply (Haccept (Sample.env_of (Sample.ok Sample.holdings) Healthy)
                   Sample.address Sample.fresh).
    vm_compute. split; discriminate.
Defined.

(** C9.  [check_wallet] works on [text.strip()]: the text cut of the
    whitespace at both ends, and of nothing else.  The stripped string is
    the one measured by the guard, named in the in-progress notice, sent as
    [ownerAddress] in the one query, and written as the key of the store.
    So a text whose stripped length is outside 32..44 is rejected whatever
    its raw length, and a text whose stripped length is inside is accepted
    whatever its raw length. *)
Theorem check_wallet_strips (e : env) (text : str) (w : world) :
  (exists l r, text = l ++ strip text ++ r /\
               forallb isspace l = true /\ forallb isspace r = true)
  /\ (forall c t, strip text = c :: t -> isspace c = false)
  /\ (forall t c, strip text = t ++ [c] -> isspace c = false)
  /\ (valid_length (strip text) = false ->
      check_wallet e text w = (Return tt, reply_text MsgInvalidAddress w))
  /\ (valid_length (strip text) = true ->
      net_calls (snd (check_wallet e text w)) =
        net_calls w ++ [payload e (strip text)]
      /\ ownerAddress (payload e (strip text)) = strip text
      /\ (exists rest, outbox (snd (check_wallet e text w)) =
                         outbox w ++ MsgChecking (strip text) :: rest)
      /\ (forall b, sqlite e = Healthy ->
                    fst (check_nft e (strip text) w) = Return b ->
                    db (snd (check_wallet e text w)) =
                      Wallets.upsert (strip text) (int b) (int b) (db w) /\
                    exists row,
                      Wallets.find (strip text)
                        (Wallets.rows (db (snd (check_wallet e text w)))) = Some row /\
                      Wallets.wallet_address row = strip text /\
                      Wallets.has_nft row = int b)).
Proof.
  split; [apply strip_split|].
  split; [exact (strip_first text)|].
  split; [intros t c; exact (strip_last text t c)|].
  split; [exact (check_wallet_rejects e text w)|].
  intros Hv.
  destruct (check_wallet_queries_stripped e text w Hv) as [Hn Ho].
  split; [exact Hn|]. split; [reflexivity|]. split; [exact Ho|].
  intros b Hs Hq.
  assert (sqlite e <> ConnectFails) as Hne by congruence.
  assert (sqlite e <> BindFails) as Hnb by congruence.
  destruct (check_wallet_reports e text w b Hv Hq Hne Hnb) as [_ [_ [_ Hd]]].
  rewrite Hs in Hd. rewrite Hd. split; [reflexivity|].
  apply WalletsFacts.find_upsert.
Qed.

Lemma check_wallet_strips_witness :
  (PyStr.len Sample.short_padded = 32%Z /\
   check_wallet (Sample.env_of (Sample.ok Sample.holdings) Healthy)
     Sample.short_padded Sample.fresh
   = (Return tt, reply_text MsgInvalidAddress Sample.fresh))
  /\ (PyStr.len Sample.padded = 46%Z /\
      net_calls (snd (check_wallet (Sample.env_of (Sample.ok Sample.holdings) Healthy)
                        Sample.padded Sample.fresh))
      = net_calls Sample.fresh ++
        [payload (Sample.env_of (Sample.ok Sample.holdings) Healthy)
                 (strip Sample.padded)] /\
      strip Sample.padded = Sample.address /\
      db (snd (check_wallet (Sample.env_of (Sample.ok Sample.holdings) Healthy)
                 Sample.padded Sample.fresh))
      = Wallets.upsert (strip Sample.padded) (int true) (int true)
          (db Sample.fresh)).
Proof.
  split.
  - split; [reflexivity|].
    apply (proj1 (proj2 (proj2 (proj2
             (check_wallet_strips (Sample.env_of (Sample.ok Sample.holdings) Healthy)
                                  Sample.short_padded Sample.fresh))))).
    reflexivity.
  - split; [reflexivity|].
    destruct (proj2 (proj2 (proj2 (proj2
                (check_wallet_strips (Sample.env_of (Sample.ok Sample.holdings) Healthy)
                                     Sample.padded Sample.fresh)))) eq_refl)
      as [Hn [_ [_ Hd]]].
    split; [exact Hn|]. split; [reflexivity|].
    exact (proj1 (Hd true eq_refl eq_refl)).
Defined.

(* ================================================================== *)
(** ** Persistence failures *)
(* ================================================================== *)

(** C4 at its failing input.  When [sqlite3.connect] raises, the handler
    of [save_wallet] logs the error, but [finally] then reads [conn],
    which was never bound: [UnboundLocalError] leaves [save_wallet], and
    [check_wallet] ends after the in-progress notice, no result reported.
    When it is the statement or the commit that raises, the error is
    caught, logged and swallowed. *)
Theorem save_wallet_unopened_store_escapes :
  (forall k c post a b w,
      save_wallet (mk_env k c post ConnectFails) a b w
      = (Raise UnboundLocalError, logging ErrorSaving w))
  /\ check_wallet (Sample.env_of Sample.http_500 ConnectFails)
       Sample.address Sample.fresh
     = (Raise UnboundLocalError,
        mk_world [MsgChecking Sample.address]
                 [payload (Sample.env_of Sample.http_500 ConnectFails) Sample.address]
                 [ErrorSaving]
                 (init_db None))
  /\ (forall k c post a b w,
         save_wallet (mk_env k c post ExecuteFails) a b w
         = (Return tt, logging ErrorSaving w))
  /\ (forall k c post a b w,
         save_wallet (mk_env k c post CommitFails) a b w
         = (Return tt, logging ErrorSaving w)).
Proof. repeat split. Qed.

(* ================================================================== *)
(** ** Terminals of the pipeline *)
(* ================================================================== *)

(** C8, as stated, fails: a 200 answer whose body is not JSON makes
    [check_wallet] end in an exception, after the in-progress notice and
    with no decision reported. *)
Lemma check_wallet_garbled_body_escapes :
  check_wallet (Sample.env_of Sample.garbled Healthy) Sample.address Sample.fresh
  = (Raise JSONDecodeError,
     mk_world [MsgChecking Sample.address]
              [payload (Sample.env_of Sample.garbled Healthy) Sample.address]
              []
              (init_db None))
  /\ ~ total_everywhere.
Proof.
  split; [reflexivity|].
  intros H.
  destruct (H (Sample.env_of Sample.garbled Healthy) Sample.address Sample.fresh)
    as [Hret _].
  discriminate Hret.
Qed.

(** C8, amended.  [check_wallet] ends in the rejection notice when the
    stripped text fails the guard; past the guard, when [check_nft]
    returns and the store either performs the statement or fails with a
    [sqlite3.Error] at the statement or at the commit, it ends in a
    reported boolean decision with no exception.  When [check_nft]
    raises, or when [cursor.execute] raises something that is not a
    [sqlite3.Error] (a [UnicodeEncodeError], for an address holding a lone
    surrogate), the exception leaves [check_wallet] after the in-progress
    notice, nothing written and no decision reported.  In particular,
    when the remote call returns HTTP 500 and the statement is performed,
    the decision is false, the row (address, 0) is written and nothing is
    raised. *)
Theorem check_wallet_terminals (e : env) (text : str) (w : world) :
  (valid_length (strip text) = false ->
   check_wallet e text w = (Return tt, reply_text MsgInvalidAddress w) /\
   ends_reported (check_wallet e text w))
  /\ (valid_length (strip text) = true ->
      forall b,
        fst (check_nft e (strip text) w) = Return b ->
        sqlite e = Healthy \/ sqlite e = ExecuteFails \/ sqlite e = CommitFails ->
        outbox (snd (check_wallet e text w)) =
          outbox w ++ [MsgChecking (strip text); decision_of b] /\
        ends_reported (check_wallet e text w))
  /\ (valid_length (strip text) = true ->
      forall ex,
        fst (check_nft e (strip text) w) = Raise ex ->
        fst (check_wallet e text w) = Raise ex /\
        outbox (snd (check_wallet e text w)) =
          outbox w ++ [MsgChecking (strip text)] /\
        db (snd (check_wallet e text w)) = db w)
  /\ (valid_length (strip text) = true ->
      forall b,
        fst (check_nft e (strip text) w) = Return b ->
        sqlite e = BindFails ->
        fst (check_wallet e text w) = Raise UnicodeEncodeError /\
        outbox (snd (check_wallet e text w)) =
          outbox w ++ [MsgChecking (strip text)] /\
        db (snd (check_wallet e text w)) = db w)
  /\ (valid_length (strip text) = true ->
      forall r,
        requests_post e (payload e (strip text)) = Return r ->
        status_code r = 500%Z ->
        sqlite e = Healthy ->
        fst (check_wallet e text w) = Return tt /\
        outbox (snd (check_wallet e text w)) =
          outbox w ++ [MsgChecking (strip text); MsgNoNft] /\
        db (snd (check_wallet e text w)) =
          Wallets.upsert (strip text) 0 0 (db w) /\
        exists row,
          Wallets.find (strip text)
            (Wallets.rows (db (snd (check_wallet e text w)))) = Some row /\
          Wallets.wallet_address row = strip text /\
          Wallets.has_nft row = 0%Z).
Proof.
  split; [|split; [|split; [|split]]].
  - intros Hv. rewrite (check_wallet_rejects e text w Hv).
    split; [reflexivity|]. split; [reflexivity|].
    exists (outbox w), MsgInvalidAddress. auto.
  - intros Hv b Hq Hs.
    assert (sqlite e <> ConnectFails) as Hne
        by (destruct Hs as [Hs|[Hs|Hs]]; congruence).
    assert (sqlite e <> BindFails) as Hnb
        by (destruct Hs as [Hs|[Hs|Hs]]; congruence).
    destruct (check_wallet_reports e text w b Hv Hq Hne Hnb) as [Hr [Ho _]].
    split; [exact Ho|]. split; [exact Hr|].
    exists (outbox w ++ [MsgChecking (strip text)]), (decision_of b).
    split; [rewrite Ho, <- app_assoc; reflexivity|].
    destruct b; auto.
  - intros Hv ex Hq. exact (check_wallet_query_raises e text w ex Hv Hq).
  - intros Hv b Hq Hs.
    destruct (check_wallet_bind_fails e text w b Hv Hq Hs) as [Hr [Ho [_ Hd]]].
    auto.
  - intros Hv r Hpost Hst Hs.
    assert (fst (check_nft e (strip text) w) = Return false) as Hq.
    { rewrite (check_nft_non_200 e (strip text) w r Hpost); [reflexivity|lia]. }
    assert (sqlite e <> ConnectFails) as Hne by congruence.
    assert (sqlite e <> BindFails) as Hnb by congruence.
    destruct (check_wallet_reports e text w false Hv Hq Hne Hnb) as [Hr [Ho [_ Hd]]].
    rewrite Hs in Hd. split; [exact Hr|]. split; [exact Ho|].
    split; [exact Hd|]. rewrite Hd.
    exact (WalletsFacts.find_upsert (strip text) 0 (db w)).
Qed.

Lemma check_wallet_terminals_witness :
  (check_wallet (Sample.env_of Sample.http_500 Healthy) (py "short") Sample.fresh
   = (Return tt, reply_text MsgInvalidAddress Sample.fresh) /\
   ends_reported
     (check_wallet (Sample.env_of Sample.http_500 Healthy) (py "short") Sample.fresh))
  /\ (outbox (snd (check_wallet (Sample.env_of (Sample.ok Sample.holdings) ExecuteFails)
                     Sample.address Sample.fresh))
      = outbox Sample.fresh ++ [MsgChecking (strip Sample.address); decision_of true] /\
      ends_reported
        (check_wallet (Sample.env_of (Sample.ok Sample.holdings) ExecuteFails)
           Sample.address Sample.fresh))
  /\ (fst (check_wallet (Sample.env_of Sample.garbled Healthy)
             Sample.address Sample.fresh) = Raise JSONDecodeError /\
      outbox (snd (check_wallet (Sample.env_of Sample.garbled Healthy)
                     Sample.address Sample.fresh))
      = outbox Sample.fresh ++ [MsgChecking (strip Sample.address)] /\
      db (snd (check_wallet (Sample.env_of Sample.garbled Healthy)
                 Sample.address Sample.fresh)) = db Sample.fresh)
  /\ (existsb lone_surrogate Cases.surrogate_address = true /\
      fst (check_wallet (Sample.env_of Sample.http_500 BindFails)
             Cases.surrogate_address Sample.fresh) = Raise UnicodeEncodeError /\
      outbox (snd (check_wallet (Sample.env_of Sample.http_500 BindFails)
                     Cases.surrogate_address Sample.fresh))
      = outbox Sample.fresh ++ [MsgChecking (strip Cases.surrogate_address)] /\
      db (snd (check_wallet (Sample.env_of Sample.http_500 BindFails)
                 Cases.surrogate_address Sample.fresh)) = db Sample.fresh)
  /\ (fst (check_wallet (Sample.env_of Sample.http_500 Healthy)
             Sample.address Sample.fresh) = Return tt /\
      outbox (snd (check_wallet (Sample.env_of Sample.http_500 Healthy)
                     Sample.address Sample.fresh))
      = outbox Sample.fresh ++ [MsgChecking (strip Sample.address); MsgNoNft] /\
      db (snd (check_wallet (Sample.env_of Sample.http_500 Healthy)
                 Sample.address Sample.fresh))
      = Wallets.upsert (strip Sample.address) 0 0 (db Sample.fresh)).
Proof.
  split; [|split; [|split; [|split]]].
  - apply (proj1 (check_wallet_terminals (Sample.env_of Sample.http_500 Healthy)
                    (py "short") Sample.fresh)).
    reflexivity.
  - apply (proj1 (proj2 (check_wallet_terminals
                    (Sample.env_of (Sample.ok Sample.holdings) ExecuteFails)
                    Sample.address Sample.fresh)) eq_refl true).
    + reflexivity.
    + right. left. reflexivity.
  - apply (proj1 (proj2 (proj2 (check_wallet_terminals
                    (Sample.env_of Sample.garbled Healthy)
                    Sample.address Sample.fresh))) eq_refl JSONDecodeError).
    reflexivity.
  - split; [reflexivity|].
    apply (proj1 (proj2 (proj2 (proj2 (check_wallet_terminals
                    (Sample.env_of Sample.http_500 BindFails)
                    Cases.surrogate_address Sample.fresh)))) eq_refl false);
      reflexivity.
  - destruct (proj2 (proj2 (proj2 (proj2 (check_wallet_terminals
                    (Sample.env_of Sample.http_500 Healthy)
                    Sample.address Sample.fresh)))) eq_refl Sample.http_500
                    eq_refl eq_refl eq_refl) as [Hr [Ho [Hd _]]].
    auto.
Defined.

(* ================================================================== *)
(** ** The ledger *)
(* ================================================================== *)

Lemma find_unique (rs : list Wallets.row) (r : Wallets.row) :
  NoDup (List.map Wallets.wallet_address rs) ->
  In r rs ->
  Wallets.find (Wallets.wallet_address r) rs = Some r.
Proof.
  induction rs as [|x rs IH]; simpl; [tauto|].
  intros Hnd Hin. inversion Hnd as [|? ? Hx Hnd']; subst.
  destruct (PyStr.eqb (Wallets.wallet_address x) (Wallets.wallet_address r)) eqn:E.
  - destruct Hin as [->|Hin]; [reflexivity|].
    apply eqb_eq in E. exfalso. apply Hx. rewrite E. now apply in_map.
  - destruct Hin as [->|Hin]; [now rewrite eqb_refl in E | now apply IH].
Qed.

(** C5.  From a consistent [wallets] table (addresses unique, rowids
    growing along the insertion order and below the AUTOINCREMENT mark),
    after any sequence of [save_wallet] calls, whatever the store does at
    each: no two records share an address; no two share an id; the records
    held before are all still there, in place, with the id and the address
    they had; every record added since has an id above the mark, hence
    above every id handed out before, and the ids grow along the insertion
    order.  Saving an address that already has a record adds none: the
    identities are unchanged and that record holds the new flag. *)
Theorem wallets_records_invariant (calls : list (env * str * bool)) (w : world) :
  consistent (db w) ->
  unique_addresses (db (run_saves calls w))
  /\ NoDup (List.map Wallets.id (Wallets.rows (db (run_saves calls w))))
  /\ ascending 0 (List.map Wallets.id (Wallets.rows (db (run_saves calls w))))
  /\ (exists added,
         List.map identity (Wallets.rows (db (run_saves calls w))) =
           List.map identity (Wallets.rows (db w)) ++ List.map identity added /\
         Forall (fun r =>
                   (Wallets.sqlite_sequence (db w) < Wallets.id r)%Z /\
                   forall old, In old (Wallets.rows (db w)) ->
                               (Wallets.id old < Wallets.id r)%Z) added)
  /\ (forall e a b,
         sqlite e = Healthy ->
         In a (List.map Wallets.wallet_address (Wallets.rows (db w))) ->
         List.map identity (Wallets.rows (db (snd (save_wallet e a b w)))) =
           List.map identity (Wallets.rows (db w)) /\
         exists row,
           Wallets.find a (Wallets.rows (db (snd (save_wallet e a b w)))) = Some row /\
           Wallets.has_nft row = int b).
Proof.
  intros Hc.
  pose proof (run_saves_consistent calls w Hc) as [Hu Ha Hm].
  split; [exact Hu|]. split; [exact (ascending_NoDup 0 _ Ha)|].
  split; [exact Ha|]. split.
  - destruct (run_saves_identity calls w) as [added [E [F _]]].
    exists added. split; [exact E|].
    eapply Forall_impl; [|exact F]. simpl. intros r Hr.
    split; [exact Hr|]. intros old Hold.
    pose proof (proj1 (Forall_forall _ _) (cons_mark _ Hc) old Hold). simpl in *. lia.
  - intros e a b Hs Hin. rewrite save_wallet_db, Hs. split.
    + destruct (WalletsFacts.find_in a _ Hin) as [r Hr].
      unfold Wallets.upsert. simpl. rewrite Hr.
      apply WalletsFacts.do_update_identity.
    + destruct (WalletsFacts.find_upsert a (int b) (db w)) as [row [Hf [_ Hv]]].
      exists row. auto.
Qed.

Lemma wallets_records_invariant_witness :
  unique_addresses (db (run_saves Sample.calls Sample.fresh))
  /\ List.map identity (Wallets.rows (db (run_saves Sample.calls Sample.fresh)))
     = [(1%Z, Sample.address); (2%Z, Sample.other_address)]
  /\ List.map identity
       (Wallets.rows (db (snd (save_wallet (Sample.env_of Sample.http_500 Healthy)
                                 Sample.address false
                                 (run_saves Sample.calls Sample.fresh)))))
     = List.map identity (Wallets.rows (db (run_saves Sample.calls Sample.fresh))).
Proof.
  split; [|split].
  - exact (proj1 (wallets_records_invariant Sample.calls Sample.fresh
                    create_consistent)).
  - reflexivity.
  - apply (proj2 (proj2 (proj2 (proj2
             (wallets_records_invariant []
                (run_saves Sample.calls Sample.fresh)
                (run_saves_consistent Sample.calls Sample.fresh create_consistent)))))
             (Sample.env_of Sample.http_500 Healthy) Sample.address false).
    + reflexivity.
    + left. reflexivity.
Defined.

(** C6.  On a store that works, and for every table honouring the UNIQUE
    constraint: [save_wallet A True] followed by [save_wallet A False]
    leaves exactly one record for [A], and its flag is 0; neither call
    raises. *)
Theorem save_wallet_last_write_wins (e : env) (A : str) (w : world) :
  sqlite e = Healthy ->
  unique_addresses (db w) ->
  fst (save_wallet e A true w) = Return tt
  /\ fst (save_wallet e A false (snd (save_wallet e A true w))) = Return tt
  /\ Wallets.count A
       (db (snd (save_wallet e A false (snd (save_wallet e A true w))))) = 1%nat
  /\ (exists row,
         Wallets.find A
           (Wallets.rows
              (db (snd (save_wallet e A false (snd (save_wallet e A true w))))))
         = Some row /\
         Wallets.has_nft row = 0%Z)
  /\ (forall row,
         In row
           (Wallets.rows
              (db (snd (save_wallet e A false (snd (save_wallet e A true w)))))) ->
         Wallets.wallet_address row = A ->
         Wallets.has_nft row = 0%Z).
Proof.
  intros Hs Hu.
  rewrite !(save_wallet_healthy e A _ _ Hs). simpl.
  set (t1 := Wallets.upsert A 1 1 (db w)).
  assert (unique_addresses (Wallets.upsert A 0 0 t1)) as Hu2
      by (apply upsert_unique, upsert_unique, Hu).
  destruct (WalletsFacts.find_upsert A 0 t1) as [row [Hf [Ha Hv]]].
  split; [reflexivity|]. split; [reflexivity|].
  split; [exact (WalletsFacts.count_unique A _ row Hu2 Hf)|].
  split; [exists row; auto|].
  intros row' Hin Ha'.
  pose proof (find_unique _ row' Hu2 Hin) as Hf'.
  rewrite Ha' in Hf'. congruence.
Qed.

Lemma save_wallet_last_write_wins_witness :
  Wallets.rows
    (db (snd (save_wallet (Sample.env_of Sample.http_500 Healthy) Sample.address false
                (snd (save_wallet (Sample.env_of Sample.http_500 Healthy)
                        Sample.address true
                        (run_saves Sample.calls Sample.fresh))))))
  = [Wallets.mk_row 1 Sample.address 0; Wallets.mk_row 2 Sample.other_address 0]
  /\ Wallets.count Sample.address
       (db (snd (save_wallet (Sample.env_of Sample.http_500 Healthy) Sample.address false
                   (snd (save_wallet (Sample.env_of Sample.http_500 Healthy)
                           Sample.address true
                           (run_saves Sample.calls Sample.fresh)))))) = 1%nat.
Proof.
  split; [reflexivity|].
  apply (save_wallet_last_write_wins (Sample.env_of Sample.http_500 Healthy)
           Sample.address (run_saves Sample.calls Sample.fresh) eq_refl).
  exact (cons_unique _ (run_saves_consistent Sample.calls Sample.fresh
                          create_consistent)).
Defined.

(** C7, as stated, fails: the store after two identical saves is not the
    store after one.  The rows are the same, but the statement draws a
    rowid before it meets the conflict, so the AUTOINCREMENT mark of
    [wallets] stands at 2 instead of 1 and the next new record would get
    id 3 instead of 2. *)
Lemma save_wallet_twice_other_store :
  db (snd (save_wallet (Sample.env_of (Sample.ok Sample.holdings) Healthy)
             Sample.address true
             (snd (save_wallet (Sample.env_of (Sample.ok Sample.holdings) Healthy)
                     Sample.address true Sample.fresh))))
  <> db (snd (save_wallet (Sample.env_of (Sample.ok Sample.holdings) Healthy)
                Sample.address true Sample.fresh))
  /\ Wallets.sqlite_sequence
       (db (snd (save_wallet (Sample.env_of (Sample.ok Sample.holdings) Healthy)
                   Sample.address true Sample.fresh))) = 1%Z
  /\ Wallets.sqlite_sequence
       (db (snd (save_wallet (Sample.env_of (Sample.ok Sample.holdings) Healthy)
                   Sample.address true
                   (snd (save_wallet (Sample.env_of (Sample.ok Sample.holdings) Healthy)
                           Sample.address true Sample.fresh))))) = 2%Z
  /\ Wallets.new_rowid
       (db (snd (save_wallet (Sample.env_of (Sample.ok Sample.holdings) Healthy)
                   Sample.address true Sample.fresh))) = 2%Z
  /\ Wallets.new_rowid
       (db (snd (save_wallet (Sample.env_of (Sample.ok Sample.holdings) Healthy)
                   Sample.address true
                   (snd (save_wallet (Sample.env_of (Sample.ok Sample.holdings) Healthy)
                           Sample.address true Sample.fresh))))) = 3%Z.
Proof.
  split; [|repeat split].
  intros H. apply (f_equal Wallets.sqlite_sequence) in H. discriminate H.
Qed.

(** C7, amended.  On a store that performs the statement, and for every
    table honouring the UNIQUE constraint: [save_wallet A True] performed
    twice leaves the rows of [wallets], ids included, exactly as
    performing it once does, with exactly one record for [A], whose flag
    is 1.  The store is not the same state: the AUTOINCREMENT mark of the
    table is higher after the second call. *)
Theorem save_wallet_idempotent (e : env) (A : str) (w : world) :
  sqlite e = Healthy ->
  unique_addresses (db w) ->
  Wallets.rows (db (snd (save_wallet e A true (snd (save_wallet e A true w)))))
  = Wallets.rows (db (snd (save_wallet e A true w)))
  /\ (Wallets.sqlite_sequence (db (snd (save_wallet e A true w)))
      < Wallets.sqlite_sequence
          (db (snd (save_wallet e A true (snd (save_wallet e A true w))))))%Z
  /\ fst (save_wallet e A true (snd (save_wallet e A true w))) = Return tt
  /\ Wallets.count A
       (db (snd (save_wallet e A true (snd (save_wallet e A true w))))) = 1%nat
  /\ (exists row,
         Wallets.find A
           (Wallets.rows
              (db (snd (save_wallet e A true (snd (save_wallet e A true w))))))
         = Some row /\
         Wallets.has_nft row = 1%Z).
Proof.
  intros Hs Hu.
  rewrite !(save_wallet_healthy e A _ _ Hs). simpl.
  set (t1 := Wallets.upsert A 1 1 (db w)).
  assert (unique_addresses (Wallets.upsert A 1 1 t1)) as Hu2
      by (apply upsert_unique, upsert_unique, Hu).
  destruct (WalletsFacts.find_upsert A 1 t1) as [row [Hf [Ha Hv]]].
  split; [exact (WalletsFacts.upsert_again_rows A 1 (db w))|].
  split; [exact (WalletsFacts.upsert_mark A 1 1 t1)|].
  split; [reflexivity|].
  split; [exact (WalletsFacts.count_unique A _ row Hu2 Hf)|].
  exists row. auto.
Qed.

Lemma save_wallet_idempotent_witness :
  Wallets.rows
    (db (snd (save_wallet (Sample.env_of (Sample.ok Sample.holdings) Healthy)
                Sample.address true
                (snd (save_wallet (Sample.env_of (Sample.ok Sample.holdings) Healthy)
                        Sample.address true Sample.fresh)))))
  = Wallets.rows
      (db (snd (save_wallet (Sample.env_of (Sample.ok Sample.holdings) Healthy)
                  Sample.address true Sample.fresh))).
Proof.
  exact (proj1 (save_wallet_idempotent
                  (Sample.env_of (Sample.ok Sample.holdings) Healthy)
                  Sample.address Sample.fresh eq_refl
                  (cons_unique _ create_consistent))).
Defined.

(** The rows are the same; the AUTOINCREMENT mark is not: SQLite draws a
    rowid before it meets the conflict. *)
Remark upsert_again_advances_mark (a : str) (v : Z) (t : Wallets.table) :
  (Wallets.sqlite_sequence (Wallets.upsert a v v t)
   < Wallets.sqlite_sequence (Wallets.upsert a v v (Wallets.upsert a v v t)))%Z.
Proof. apply WalletsFacts.upsert_mark. Qed.

(** C10.  [int(has_nft)] is 0 or 1, and it is what both branches of the
    upsert write; so, from the table [init_db] creates, and from any table
    whose flags are 0 or 1, after any sequence of [save_wallet] calls
    every record's [has_nft] is 0 or 1. *)
Theorem has_nft_is_a_bit :
  (forall b, int b = 0%Z \/ int b = 1%Z)
  /\ (forall calls sent called logged,
         bit_valued (db (run_saves calls
                           (mk_world sent called logged (init_db None)))))
  /\ (forall calls w, bit_valued (db w) -> bit_valued (db (run_saves calls w)))
  /\ (forall a b t,
         bit_valued t ->
         Wallets.find a (Wallets.rows t) = None ->
         Wallets.rows (Wallets.upsert a (int b) (int b) t) =
           Wallets.rows t ++ [Wallets.mk_row (Wallets.new_rowid t) a (int b)] /\
         bit_valued (Wallets.upsert a (int b) (int b) t))
  /\ (forall a b t row,
         bit_valued t ->
         Wallets.find a (Wallets.rows t) = Some row ->
         Wallets.rows (Wallets.upsert a (int b) (int b) t) =
           Wallets.do_update a (int b) (Wallets.rows t) /\
         bit_valued (Wallets.upsert a (int b) (int b) t)).
Proof.
  split; [intros []; auto|]. split; [|split; [|split]].
  - intros calls sent called logged. apply run_saves_bits. constructor.
  - exact run_saves_bits.
  - intros a b t Hb Hf. split.
    + unfold Wallets.upsert. simpl. now rewrite Hf.
    + now apply WalletsFacts.upsert_preserves_bits.
  - intros a b t row Hb Hf. split.
    + unfold Wallets.upsert. simpl. now rewrite Hf.
    + now apply WalletsFacts.upsert_preserves_bits.
Qed.

Lemma has_nft_is_a_bit_witness :
  bit_valued (db (run_saves Sample.calls Sample.fresh))
  /\ bit_valued (Wallets.upsert Sample.address (int true) (int true)
                   (db (run_saves Sample.calls Sample.fresh)))
  /\ bit_valued (Wallets.upsert (py "fresh") (int true) (int true)
                   (db (run_saves Sample.calls Sample.fresh))).
Proof.
  destruct has_nft_is_a_bit as [_ [Hinit [Hrun [Hins Hupd]]]].
  assert (bit_valued (db (run_saves Sample.calls Sample.fresh))) as Hb.
  { apply (Hrun Sample.calls Sample.fresh). constructor. }
  split; [exact Hb|]. split.
  - apply (Hupd Sample.address true _ (Wallets.mk_row 1 Sample.address 1) Hb).
    reflexivity.
  - apply (Hins (py "fresh") true _ Hb). reflexivity.
Defined.

(* ================================================================== *)
(** ** Further properties: the text handed to [check_wallet] *)
(* ================================================================== *)

Lemma lstrip_app_blank (l s : str) :
  forallb isspace l = true -> lstrip (l ++ s) = lstrip s.
Proof.
  induction l as [|c l IH]; simpl; [reflexivity|].
  intros H. apply andb_true_iff in H as [Hc Hl]. rewrite Hc. now apply IH.
Qed.

Lemma lstrip_blank (s : str) : forallb isspace s = true -> lstrip s = [].
Proof.
  intros H. rewrite <- (app_nil_r s). now rewrite lstrip_app_blank.
Qed.

Lemma lstrip_nil_blank (s : str) : lstrip s = [] -> forallb isspace s = true.
Proof.
  induction s as [|c s IH]; simpl; [reflexivity|].
  destruct (isspace c); [exact IH | discriminate].
Qed.

Lemma lstrip_app_tail (s r : str) :
  lstrip s <> [] -> lstrip (s ++ r) = lstrip s ++ r.
Proof.
  induction s as [|c s IH]; simpl; [congruence|].
  destruct (isspace c); [exact IH | reflexivity].
Qed.

Lemma rstrip_app_blank (s r : str) :
  forallb isspace r = true -> rstrip (s ++ r) = rstrip s.
Proof.
  intros H. unfold rstrip. rewrite rev_app_distr.
  rewrite lstrip_app_blank; [reflexivity | now apply forallb_rev].
Qed.

Lemma rstrip_blank (s : str) : forallb isspace s = true -> rstrip s = [].
Proof.
  intros H. unfold rstrip. rewrite lstrip_blank; [reflexivity | now apply forallb_rev].
Qed.

(** Whitespace around a text does not reach [strip]'s result. *)
Lemma strip_pad (l s r : str) :
  forallb isspace l = true -> forallb isspace r = true ->
  strip (l ++ s ++ r) = strip s.
Proof.
  intros Hl Hr. unfold strip. rewrite (lstrip_app_blank l (s ++ r) Hl).
  destruct (lstrip s) as [|c t] eqn:E.
  - apply lstrip_nil_blank in E.
    rewrite lstrip_blank; [reflexivity|].
    rewrite forallb_app, E, Hr. reflexivity.
  - rewrite lstrip_app_tail; [|congruence]. rewrite E.
    now apply rstrip_app_blank.
Qed.

(** X15.  Whitespace typed before or after a text changes nothing of what
    [check_wallet] does: the same replies, the same query, the same write,
    the same result; and running it on the stripped text is running it on
    the text. *)
Theorem check_wallet_ignores_padding (e : env) (s : str) (w : world) :
  (forall l r,
      forallb isspace l = true -> forallb isspace r = true ->
      strip (l ++ s ++ r) = strip s /\
      check_wallet e (l ++ s ++ r) w = check_wallet e s w)
  /\ strip (strip s) = strip s
  /\ check_wallet e (strip s) w = check_wallet e s w.
Proof.
  assert (forall l r,
             forallb isspace l = true -> forallb isspace r = true ->
             check_wallet e (l ++ s ++ r) w = check_wallet e s w) as Hpad.
  { intros l r Hl Hr. unfold check_wallet. now rewrite (strip_pad l s r Hl Hr). }
  assert (strip (strip s) = strip s) as Hidem.
  { destruct (strip_split s) as [l [r [E [Hl Hr]]]].
    rewrite E at 2. symmetry. now apply strip_pad. }
  split; [|split].
  - intros l r Hl Hr. split; [now apply strip_pad | now apply Hpad].
  - exact Hidem.
  - unfold check_wallet. now rewrite Hidem.
Qed.

Lemma check_wallet_ignores_padding_witness :
  strip ([9%N; 32%N] ++ Sample.address ++ [13%N; 10%N]) = strip Sample.address /\
  check_wallet (Sample.env_of (Sample.ok Sample.holdings) Healthy)
    ([9%N; 32%N] ++ Sample.address ++ [13%N; 10%N]) Sample.fresh
  = check_wallet (Sample.env_of (Sample.ok Sample.holdings) Healthy)
      Sample.address Sample.fresh.
Proof.
  apply (proj1 (check_wallet_ignores_padding
                  (Sample.env_of (Sample.ok Sample.holdings) Healthy)
                  Sample.address Sample.fresh));
    reflexivity.
Defined.

(** X16.  An empty message, or one made of whitespace only, however long,
    is rejected: one rejection notice, no query, no write. *)
Theorem check_wallet_rejects_blank (e : env) (text : str) (w : world) :
  forallb isspace text = true ->
  strip text = [] /\
  check_wallet e text w = (Return tt, reply_text MsgInvalidAddress w).
Proof.
  intros H.
  assert (strip text = []) as E.
  { unfold strip. rewrite (lstrip_blank text H). reflexivity. }
  split; [exact E|].
  apply check_wallet_rejects. rewrite E. reflexivity.
Qed.

Lemma check_wallet_rejects_blank_witness :
  strip (repeat 32%N 40) = [] /\
  check_wallet (Sample.env_of (Sample.ok Sample.holdings) Healthy)
    (repeat 32%N 40) Sample.fresh
  = (Return tt, reply_text MsgInvalidAddress Sample.fresh).
Proof.
  apply (check_wallet_rejects_blank
           (Sample.env_of (Sample.ok Sample.holdings) Healthy)
           (repeat 32%N 40) Sample.fresh).
  reflexivity.
Defined.

(* ================================================================== *)
(** ** Further properties: [check_nft] *)
(* ================================================================== *)

(** X1.  Whatever the remote does, an exception included, [check_nft]
    makes exactly one call: [getAssetsByOwner] for the address it was
    given, page 1, limit 1000, with the configured key; it sends no reply
    and leaves the store alone. *)
Theorem check_nft_one_request (e : env) (a : str) (w : world) :
  net_calls (snd (check_nft e a w)) =
    net_calls w ++
    [mk_request (HELIUS_API_KEY e) (py "getAssetsByOwner") a 1 1000]
  /\ outbox (snd (check_nft e a w)) = outbox w
  /\ db (snd (check_nft e a w)) = db w.
Proof.
  destruct (check_nft_frame e a w) as [Ho [Hn Hd]].
  split; [exact Hn|]. split; [exact Ho | exact Hd].
Qed.

Lemma check_nft_log_shape (e : env) (a : str) (w : world) :
  exists L,
    log (snd (check_nft e a w)) = log w ++ L /\
    (L = [] \/
     (exists n, L = [InfoReceived n a]) \/
     (exists n, L = [InfoReceived n a; InfoFound (COLLECTION_ID e)])) /\
    (fst (check_nft e a w) = Return true <->
     In (InfoFound (COLLECTION_ID e)) L).
Proof.
  unfold check_nft. run_handler.
  repeat case_split; simpl;
    first
      [ exists []; rewrite app_nil_r; split; [reflexivity|];
        split; [auto|]; split; [discriminate | intros []]
      | eexists [_]; split; [reflexivity|];
        split; [right; left; eexists; reflexivity|];
        split; [discriminate | intros [H|[]]; discriminate]
      | eexists [_; _]; split; [rewrite <- app_assoc; reflexivity|];
        split; [right; right; eexists; reflexivity|];
        split; [intros _; right; left; reflexivity | reflexivity] ].
Qed.

(** X2.  [check_nft] writes at most two log records, in this order: the
    count of items received with the address, then the match.  The match
    record is there exactly when the answer is [True]; on a 200 answer
    whose [result.items] is a list the count is the length of that list;
    on any other status nothing is logged. *)
Theorem check_nft_log (e : env) (a : str) (w : world) :
  (exists L,
      log (snd (check_nft e a w)) = log w ++ L /\
      (L = [] \/
       (exists n, L = [InfoReceived n a]) \/
       (exists n, L = [InfoReceived n a; InfoFound (COLLECTION_ID e)])) /\
      (fst (check_nft e a w) = Return true <->
       In (InfoFound (COLLECTION_ID e)) L))
  /\ (forall r data result nfts,
         requests_post e (payload e a) = Return r ->
         status_code r = 200%Z ->
         body r = Some data ->
         getitem data (py "result") = Return result ->
         getitem result (py "items") = Return (JArray nfts) ->
         exists L,
           log (snd (check_nft e a w)) =
             log w ++ InfoReceived (Z.of_nat (List.length nfts)) a :: L)
  /\ (forall r,
         requests_post e (payload e a) = Return r ->
         status_code r <> 200%Z ->
         log (snd (check_nft e a w)) = log w).
Proof.
  split; [apply check_nft_log_shape|]. split.
  - intros r data result nfts Hpost Hst Hbody Hres Hitems.
    unfold check_nft, response_json. run_handler.
    rewrite Hpost, Hst, Hbody. simpl.
    rewrite (getitem_contains _ _ _ Hres), Hres. simpl.
    rewrite (getitem_contains _ _ _ Hitems), Hitems. simpl.
    destruct (membership_decision (COLLECTION_ID e) nfts) as [[|]|ex]; simpl.
    + exists [InfoFound (COLLECTION_ID e)]. now rewrite <- app_assoc.
    + exists []. reflexivity.
    + exists []. reflexivity.
  - intros r Hpost Hst. now rewrite (check_nft_non_200 e a w r Hpost Hst).
Qed.

Lemma check_nft_log_witness :
  (exists L,
      log (snd (check_nft (Sample.env_of (Sample.ok Sample.holdings) Healthy)
                  Sample.address Sample.fresh)) =
        log Sample.fresh ++ InfoReceived 3 Sample.address :: L)
  /\ log (snd (check_nft (Sample.env_of Sample.http_500 Healthy)
                 Sample.address Sample.fresh)) = log Sample.fresh.
Proof.
  split.
  - apply (proj1 (proj2 (check_nft_log
                    (Sample.env_of (Sample.ok Sample.holdings) Healthy)
                    Sample.address Sample.fresh))
             (Sample.ok Sample.holdings)
             (Sample.envelope Sample.holdings)
             (JObject [(py "total", JInt 3); (py "items", JArray Sample.holdings)])
             Sample.holdings); reflexivity.
  - apply (proj2 (proj2 (check_nft_log
                    (Sample.env_of Sample.http_500 Healthy)
                    Sample.address Sample.fresh))
             Sample.http_500).
    + reflexivity.
    + simpl. lia.
Defined.

(** The scan with [COLLECTION_ID] as [os.getenv] gave it. *)
Lemma eq_getenv_none (v : json) : eq_getenv v None = true <-> v = JNull.
Proof. destruct v; simpl; split; congruence. Qed.

Lemma group_test_equals (c : option str) (group : json) :
  group_test c group = Return true <-> tag_equals c group.
Proof.
  unfold group_test, tag_equals. split.
  - destruct (getitem group (py "group_key")) as [key|ex] eqn:Ek; simpl;
      [|discriminate].
    destruct (eq_str key (py "collection")) eqn:Hkey; [|discriminate].
    apply eq_str_iff in Hkey. subst key.
    destruct (getitem group (py "group_value")) as [value|ex] eqn:Ev; simpl;
      [|discriminate].
    intros H. split; [reflexivity|]. exists value. split; [reflexivity|].
    congruence.
  - intros [Hk [value [Hv Heq]]]. rewrite Hk. simpl. rewrite Hv. simpl.
    now rewrite Heq.
Qed.

Lemma nft_test_equals (c : option str) (nft : json) :
  nft_test c nft = Return true -> carries_equal c nft.
Proof.
  unfold nft_test, carries_equal.
  destruct (contains (py "grouping") nft) as [[|]|ex]; simpl; try discriminate.
  destruct (getitem nft (py "grouping")) as [grouping|ex]; simpl; [|discriminate].
  destruct (iter grouping) as [groups|ex] eqn:Ei; simpl; [|discriminate].
  intros H. apply first_hit_true in H as [group [Hin Hg]].
  apply group_test_equals in Hg.
  destruct grouping as [| | | | |xs|kvs]; simpl in Ei; try discriminate;
    inversion Ei; subst groups.
  - apply in_map_iff in Hin as [ch [<- _]]. destruct Hg as [Hk _]. discriminate.
  - exists xs, group. auto.
  - apply in_map_iff in Hin as [k [<- _]]. destruct Hg as [Hk _]. discriminate.
Qed.

Lemma nft_test_equals_not_false (c : option str) (nft : json) :
  carries_equal c nft -> nft_test c nft <> Return false.
Proof.
  intros [groups [group [Hg [Hin Hm]]]] H.
  unfold nft_test in H.
  rewrite (getitem_contains _ _ _ Hg), Hg in H. simpl in H.
  pose proof (first_hit_false _ _ H group Hin) as Hf.
  apply group_test_equals in Hm. congruence.
Qed.

Lemma membership_decision_equals (c : option str) (nfts : list json) (b : bool) :
  membership_decision c nfts = Return b ->
  (b = true <-> exists nft, In nft nfts /\ carries_equal c nft).
Proof.
  unfold membership_decision. intros H. destruct b.
  - split; [|reflexivity]. intros _.
    apply first_hit_true in H as [nft [Hin Ht]].
    exists nft. split; [exact Hin | now apply nft_test_equals].
  - split; [discriminate|]. intros [nft [Hin Hc]].
    pose proof (first_hit_false _ _ H nft Hin) as Hf.
    now apply nft_test_equals_not_false in Hc.
Qed.

Lemma first_hit_returns (body : json -> outcome bool) (xs : list json) :
  (forall x, In x xs -> exists b, body x = Return b) ->
  exists b, first_hit body xs = Return b.
Proof.
  induction xs as [|x xs IH]; intros H; simpl; [now exists false|].
  destruct (H x (or_introl eq_refl)) as [b Hb]. rewrite Hb. simpl.
  destruct b; [now exists true|].
  apply IH. intros y Hy. apply H. now right.
Qed.

Lemma group_test_returns (c : option str) (group : json) :
  well_formed_group group = true -> exists b, group_test c group = Return b.
Proof.
  destruct group as [| | | | |xs|kvs]; simpl; try discriminate.
  intros H. apply andb_true_iff in H as [Hk Hv].
  destruct (assoc (py "group_key") kvs) as [key|] eqn:Ek; [|discriminate].
  destruct (assoc (py "group_value") kvs) as [value|] eqn:Ev; [|discriminate].
  unfold group_test. simpl. rewrite Ek. simpl.
  destruct (eq_str key (py "collection")).
  - rewrite Ev. simpl. eexists; reflexivity.
  - eexists; reflexivity.
Qed.

Lemma nft_test_returns (c : option str) (nft : json) :
  well_formed_asset nft = true -> exists b, nft_test c nft = Return b.
Proof.
  destruct nft as [| | | | |xs|kvs]; simpl; try discriminate.
  unfold nft_test. simpl.
  destruct (assoc (py "grouping") kvs) as [grouping|] eqn:Eg; simpl.
  - destruct grouping as [| | | | |groups|]; try discriminate.
    intros Hwf. apply first_hit_returns.
    intros g Hg. apply group_test_returns.
    revert g Hg. now apply forallb_forall.
  - intros _. now exists false.
Qed.

Lemma membership_decision_returns (c : option str) (nfts : list json) :
  forallb well_formed_asset nfts = true ->
  exists b, membership_decision c nfts = Return b.
Proof.
  intros H. apply first_hit_returns. intros nft Hin.
  apply nft_test_returns. revert nft Hin. now apply forallb_forall.
Qed.

(** X3.  With [COLLECTION_ID] not set in the environment, [os.getenv]
    gives [None] and the comparison of line 92 is with [None]: on a 200
    answer carrying an item list, an answer [check_nft] returns is [True]
    exactly when some asset has a tag of kind "collection" whose value is
    JSON null; on an asset list of the documented shape with no null
    value it returns [False], whatever strings the tags hold. *)
Theorem check_nft_collection_unset
        (e : env) (a : str) (w : world) (r : response)
        (data result : json) (nfts : list json) :
  COLLECTION_ID e = None ->
  requests_post e (payload e a) = Return r ->
  status_code r = 200%Z ->
  body r = Some data ->
  getitem data (py "result") = Return result ->
  getitem result (py "items") = Return (JArray nfts) ->
  (forall b,
      fst (check_nft e a w) = Return b ->
      (b = true <->
       exists nft groups group,
         In nft nfts /\
         getitem nft (py "grouping") = Return (JArray groups) /\
         In group groups /\ tag_is_null group))
  /\ (forallb well_formed_asset nfts = true ->
      (forall nft groups group,
          In nft nfts ->
          getitem nft (py "grouping") = Return (JArray groups) ->
          In group groups ->
          getitem group (py "group_value") <> Return JNull) ->
      fst (check_nft e a w) = Return false).
Proof.
  intros Hc Hpost Hst Hbody Hres Hitems.
  pose proof (check_nft_scans e a w r data result nfts Hpost Hst Hbody Hres Hitems)
    as Hscan. rewrite Hc in Hscan.
  assert (forall b, membership_decision None nfts = Return b ->
                    (b = true <->
                     exists nft groups group,
                       In nft nfts /\
                       getitem nft (py "grouping") = Return (JArray groups) /\
                       In group groups /\ tag_is_null group)) as Hsound.
  { intros b Hb. rewrite (membership_decision_equals None nfts b Hb). split.
    - intros [nft [Hin [groups [group [Hg [Hgin [Hk [value [Hv Heq]]]]]]]]].
      apply eq_getenv_none in Heq. subst value.
      exists nft, groups, group. unfold tag_is_null. auto.
    - intros [nft [groups [group [Hin [Hg [Hgin [Hk Hv]]]]]]].
      exists nft. split; [exact Hin|]. exists groups, group.
      split; [exact Hg|]. split; [exact Hgin|]. split; [exact Hk|].
      exists JNull. auto. }
  split.
  - intros b Hb. apply Hsound. congruence.
  - intros Hwf Hnonull. rewrite Hscan.
    destruct (membership_decision_returns None nfts Hwf) as [b Hb].
    rewrite Hb. destruct b; [|reflexivity].
    destruct (proj1 (Hsound true Hb) eq_refl)
      as [nft [groups [group [Hin [Hg [Hgin [_ Hv]]]]]]].
    now destruct (Hnonull nft groups group Hin Hg Hgin).
Qed.

Lemma check_nft_collection_unset_witness :
  (false = true <->
   exists nft groups group,
     In nft Sample.holdings /\
     getitem nft (py "grouping") = Return (JArray groups) /\
     In group groups /\ tag_is_null group)
  /\ fst (check_nft (Cases.env_unset (Sample.ok Sample.holdings) Healthy)
            Sample.address Sample.fresh) = Return false
  /\ (true = true <->
      exists nft groups group,
        In nft Cases.null_tagged /\
        getitem nft (py "grouping") = Return (JArray groups) /\
        In group groups /\ tag_is_null group).
Proof.
  pose proof (check_nft_collection_unset
                (Cases.env_unset (Sample.ok Sample.holdings) Healthy)
                Sample.address Sample.fresh (Sample.ok Sample.holdings)
                (Sample.envelope Sample.holdings)
                (JObject [(py "total", JInt 3); (py "items", JArray Sample.holdings)])
                Sample.holdings eq_refl eq_refl eq_refl eq_refl eq_refl eq_refl)
    as [Hsound Hfalse].
  split; [apply (Hsound false); reflexivity|].
  split.
  - apply Hfalse; [reflexivity|].
    intros nft groups group [E|[E|[E|[]]]] Hg Hin; subst nft;
      try discriminate Hg; inversion Hg; subst groups;
      repeat (destruct Hin as [E|Hin]; [subst group; discriminate|]);
      destruct Hin.
  - apply (proj1 (check_nft_collection_unset
                    (Cases.env_unset (Sample.ok Cases.null_tagged) Healthy)
                    Sample.address Sample.fresh (Sample.ok Cases.null_tagged)
                    (Sample.envelope Cases.null_tagged)
                    (JObject [(py "total", JInt 2);
                              (py "items", JArray Cases.null_tagged)])
                    Cases.null_tagged
                    eq_refl eq_refl eq_refl eq_refl eq_refl eq_refl) true).
    reflexivity.
Defined.

(** X4.  The test of line 92 on one tag, case by case: a tag that is not
    an object raises [TypeError]; an object without [group_key] raises
    [KeyError]; when [group_key] is anything but the string "collection"
    the answer is [False] and [group_value] is never read, so it may be
    missing; when it is "collection", a missing [group_value] raises
    [KeyError], and otherwise the answer is the comparison of the value
    with [COLLECTION_ID]. *)
Theorem group_test_cases (c : option str) (group : json) :
  ((forall kvs, group <> JObject kvs) -> group_test c group = Raise TypeError)
  /\ (forall kvs,
         group = JObject kvs ->
         assoc (py "group_key") kvs = None ->
         group_test c group = Raise KeyError)
  /\ (forall kvs key,
         group = JObject kvs ->
         assoc (py "group_key") kvs = Some key ->
         key <> JStr (py "collection") ->
         group_test c group = Return false)
  /\ (forall kvs,
         group = JObject kvs ->
         assoc (py "group_key") kvs = Some (JStr (py "collection")) ->
         assoc (py "group_value") kvs = None ->
         group_test c group = Raise KeyError)
  /\ (forall kvs value,
         group = JObject kvs ->
         assoc (py "group_key") kvs = Some (JStr (py "collection")) ->
         assoc (py "group_value") kvs = Some value ->
         group_test c group = Return (eq_getenv value c)).
Proof.
  split; [|split; [|split; [|split]]].
  - intros H. destruct group as [| | | | | |kvs]; try reflexivity.
    now destruct (H kvs).
  - intros kvs -> Hk. unfold group_test. simpl. now rewrite Hk.
  - intros kvs key -> Hk Hne. unfold group_test. simpl. rewrite Hk. simpl.
    destruct (eq_str key (py "collection")) eqn:E; [|reflexivity].
    apply eq_str_iff in E. contradiction.
  - intros kvs -> Hk Hv. unfold group_test. simpl. rewrite Hk. simpl.
    now rewrite Hv.
  - intros kvs value -> Hk Hv. unfold group_test. simpl. rewrite Hk. simpl.
    now rewrite Hv.
Qed.

Lemma group_test_cases_witness :
  group_test (Some Sample.collection) (JStr (py "collection")) = Raise TypeError
  /\ group_test (Some Sample.collection)
       (JObject [(py "group_value", JStr Sample.collection)]) = Raise KeyError
  /\ group_test (Some Sample.collection)
       (JObject [(py "group_key", JStr (py "creator"))]) = Return false
  /\ group_test (Some Sample.collection)
       (JObject [(py "group_key", JStr (py "collection"))]) = Raise KeyError
  /\ group_test (Some Sample.collection)
       (Sample.tag (py "collection") Sample.collection)
     = Return (eq_getenv (JStr Sample.collection) (Some Sample.collection)).
Proof.
  split; [|split; [|split; [|split]]].
  - apply (proj1 (group_test_cases (Some Sample.collection)
                    (JStr (py "collection")))).
    intros kvs. discriminate.
  - apply (proj1 (proj2 (group_test_cases (Some Sample.collection)
                    (JObject [(py "group_value", JStr Sample.collection)])))
             [(py "group_value", JStr Sample.collection)]); reflexivity.
  - apply (proj1 (proj2 (proj2 (group_test_cases (Some Sample.collection)
                    (JObject [(py "group_key", JStr (py "creator"))]))))
             [(py "group_key", JStr (py "creator"))] (JStr (py "creator")));
      [reflexivity | reflexivity | discriminate].
  - apply (proj1 (proj2 (proj2 (proj2 (group_test_cases (Some Sample.collection)
                    (JObject [(py "group_key", JStr (py "collection"))])))))
             [(py "group_key", JStr (py "collection"))]); reflexivity.
  - apply (proj2 (proj2 (proj2 (proj2 (group_test_cases (Some Sample.collection)
                    (Sample.tag (py "collection") Sample.collection)))))
             [(py "group_key", JStr (py "collection"));
              (py "group_value", JStr Sample.collection)]
             (JStr Sample.collection)); reflexivity.
Defined.

Lemma first_hit_raises (body : json -> outcome bool) (xs : list json) (ex : exn) :
  first_hit body xs = Raise ex <->
  exists before bad after,
    xs = before ++ bad :: after /\
    (forall y, In y before -> body y = Return false) /\
    body bad = Raise ex.
Proof.
  split.
  - induction xs as [|x xs IH]; simpl; [discriminate|].
    destruct (body x) as [[|]|e'] eqn:Ex; simpl.
    + discriminate.
    + intros H. destruct (IH H) as [before [bad [after [E [Hb Hr]]]]].
      exists (x :: before), bad, after. split; [now rewrite E|].
      split; [|exact Hr]. intros y [<-|Hy]; auto.
    + intros H. exists [], x, xs. split; [reflexivity|].
      split; [intros y []|congruence].
  - intros [before [bad [after [-> [Hb Hr]]]]].
    induction before as [|y before IH]; simpl.
    + now rewrite Hr.
    + rewrite (Hb y (or_introl eq_refl)). simpl.
      apply IH. intros z Hz. apply Hb. now right.
Qed.

(** X5.  The scan raises exactly when it reaches, after assets that all
    answered [False], an asset whose test raises, and it raises that
    exception; what comes after, an owner's asset included, is never
    looked at.  The same holds of the tags of one asset. *)
Theorem scan_raises_first (c : option str) (ex : exn) :
  (forall nfts,
      membership_decision c nfts = Raise ex <->
      exists before bad after,
        nfts = before ++ bad :: after /\
        (forall y, In y before -> nft_test c y = Return false) /\
        nft_test c bad = Raise ex)
  /\ (forall kvs groups,
         assoc (py "grouping") kvs = Some (JArray groups) ->
         (nft_test c (JObject kvs) = Raise ex <->
          exists before bad after,
            groups = before ++ bad :: after /\
            (forall y, In y before -> group_test c y = Return false) /\
            group_test c bad = Raise ex)).
Proof.
  split.
  - intros nfts. apply first_hit_raises.
  - intros kvs groups Hg. unfold nft_test. simpl. rewrite Hg. simpl.
    apply first_hit_raises.
Qed.

Lemma scan_raises_first_witness :
  membership_decision (Some Sample.collection) Cases.broken_then_owner
  = Raise KeyError.
Proof.
  apply (proj1 (scan_raises_first (Some Sample.collection) KeyError)
           Cases.broken_then_owner).
  exists [Sample.bare_asset (py "c1")],
         (Sample.asset (py "c2")
            [JObject [(py "group_value", JStr Sample.collection)]]),
         [Sample.asset (py "c3") [Sample.tag (py "collection") Sample.collection]].
  split; [reflexivity|]. split.
  - intros y [<-|[]]. reflexivity.
  - apply (proj2 (scan_raises_first (Some Sample.collection) KeyError)
             [(py "id", JStr (py "c2"));
              (py "grouping",
               JArray [JObject [(py "group_value", JStr Sample.collection)]])]
             [JObject [(py "group_value", JStr Sample.collection)]] eq_refl).
    exists [], (JObject [(py "group_value", JStr Sample.collection)]), [].
    split; [reflexivity|]. split; [intros y []|reflexivity].
Defined.

Lemma char_has_no_grouping (ch : char) :
  PyStr.contains [ch] (py "grouping") = false.
Proof.
  unfold py. cbn. destruct ch as [|p]; [reflexivity|].
  now rewrite andb_false_r.
Qed.

Lemma scan_of_chars (c : option str) (s : str) :
  first_hit (nft_test c) (List.map (fun ch => JStr [ch]) s) = Return false.
Proof.
  induction s as [|ch s IH]; [reflexivity|].
  cbn [List.map first_hit]. unfold nft_test at 1.
  change (contains (py "grouping") (JStr [ch]))
    with (Return (A:=bool) (PyStr.contains [ch] (py "grouping"))).
  rewrite char_has_no_grouping. exact IH.
Qed.

(** X6.  Where fail-soft stops, on a 200 answer whose body is JSON: a
    body that is [null], a boolean or a number raises [TypeError]; so
    does a [result] member that is one of these, and an [items] member
    that is one of these, in each case before anything is logged.  A body
    that is a list without the string "result" among its elements gives
    [False]; an [items] member that is a string gives [False] too, its
    length logged as the count. *)
Theorem check_nft_envelope_boundary
        (e : env) (a : str) (w : world) (r : response) (data : json) :
  requests_post e (payload e a) = Return r ->
  status_code r = 200%Z ->
  body r = Some data ->
  (scalar data = true ->
   check_nft e a w = (Raise TypeError, record_call (payload e a) w))
  /\ (forall kvs result,
         data = JObject kvs ->
         assoc (py "result") kvs = Some result ->
         scalar result = true ->
         check_nft e a w = (Raise TypeError, record_call (payload e a) w))
  /\ (forall kvs kvs' items,
         data = JObject kvs ->
         assoc (py "result") kvs = Some (JObject kvs') ->
         assoc (py "items") kvs' = Some items ->
         scalar items = true ->
         check_nft e a w = (Raise TypeError, record_call (payload e a) w))
  /\ (forall xs,
         data = JArray xs ->
         existsb (fun x => eq_str x (py "result")) xs = false ->
         check_nft e a w = (Return false, record_call (payload e a) w))
  /\ (forall kvs kvs' s,
         data = JObject kvs ->
         assoc (py "result") kvs = Some (JObject kvs') ->
         assoc (py "items") kvs' = Some (JStr s) ->
         check_nft e a w =
           (Return false,
            logging (InfoReceived (PyStr.len s) a)
                    (record_call (payload e a) w))).
Proof.
  intros Hpost Hst Hbody.
  split; [|split; [|split; [|split]]].
  - intros Hs. unfold check_nft, response_json. run_handler.
    rewrite Hpost, Hst, Hbody. simpl.
    destruct data; try discriminate Hs; reflexivity.
  - intros kvs result -> Hres Hs. unfold check_nft, response_json. run_handler.
    rewrite Hpost, Hst, Hbody. simpl. rewrite Hres. simpl.
    destruct result; try discriminate Hs; reflexivity.
  - intros kvs kvs' items -> Hres Hitems Hs.
    unfold check_nft, response_json. run_handler.
    rewrite Hpost, Hst, Hbody. simpl. rewrite Hres. simpl. rewrite Hitems. simpl.
    destruct items; try discriminate Hs; reflexivity.
  - intros xs -> Hno. unfold check_nft, response_json. run_handler.
    rewrite Hpost, Hst, Hbody. simpl. now rewrite Hno.
  - intros kvs kvs' s -> Hres Hitems.
    unfold check_nft, response_json. run_handler.
    rewrite Hpost, Hst, Hbody. simpl. rewrite Hres. simpl. rewrite Hitems. simpl.
    unfold membership_decision. now rewrite scan_of_chars.
Qed.

Lemma check_nft_envelope_boundary_witness :
  check_nft (Sample.env_of (mk_response 200 (Some JNull)) Healthy)
    Sample.address Sample.fresh
  = (Raise TypeError,
     record_call Cases.call Sample.fresh)
  /\ check_nft (Sample.env_of (Cases.body_with_result JNull) Healthy)
       Sample.address Sample.fresh
     = (Raise TypeError,
        record_call Cases.call Sample.fresh)
  /\ check_nft (Sample.env_of
                  (Cases.body_with_result (JObject [(py "items", JInt 0)])) Healthy)
       Sample.address Sample.fresh
     = (Raise TypeError,
        record_call Cases.call Sample.fresh)
  /\ check_nft (Sample.env_of (mk_response 200 (Some (JArray [JInt 1]))) Healthy)
       Sample.address Sample.fresh
     = (Return false,
        record_call Cases.call Sample.fresh)
  /\ check_nft (Sample.env_of
                  (Cases.body_with_result
                     (JObject [(py "items", JStr (py "grouping"))])) Healthy)
       Sample.address Sample.fresh
     = (Return false,
        logging (InfoReceived 8 Sample.address)
          (record_call Cases.call Sample.fresh)).
Proof.
  split; [|split; [|split; [|split]]].
  - apply (proj1 (check_nft_envelope_boundary
             (Sample.env_of (mk_response 200 (Some JNull)) Healthy)
             Sample.address Sample.fresh (mk_response 200 (Some JNull)) JNull
             eq_refl eq_refl eq_refl)).
    reflexivity.
  - apply (proj1 (proj2 (check_nft_envelope_boundary
             (Sample.env_of (Cases.body_with_result JNull) Healthy)
             Sample.address Sample.fresh (Cases.body_with_result JNull) _
             eq_refl eq_refl eq_refl))
             [(py "jsonrpc", JStr (py "2.0")); (py "result", JNull)] JNull);
      reflexivity.
  - apply (proj1 (proj2 (proj2 (check_nft_envelope_boundary
             (Sample.env_of (Cases.body_with_result (JObject [(py "items", JInt 0)]))
                            Healthy)
             Sample.address Sample.fresh
             (Cases.body_with_result (JObject [(py "items", JInt 0)])) _
             eq_refl eq_refl eq_refl)))
             [(py "jsonrpc", JStr (py "2.0"));
              (py "result", JObject [(py "items", JInt 0)])]
             [(py "items", JInt 0)] (JInt 0));
      reflexivity.
  - apply (proj1 (proj2 (proj2 (proj2 (check_nft_envelope_boundary
             (Sample.env_of (mk_response 200 (Some (JArray [JInt 1]))) Healthy)
             Sample.address Sample.fresh
             (mk_response 200 (Some (JArray [JInt 1]))) _
             eq_refl eq_refl eq_refl))))
             [JInt 1]);
      reflexivity.
  - apply (proj2 (proj2 (proj2 (proj2 (check_nft_envelope_boundary
             (Sample.env_of
                (Cases.body_with_result
                   (JObject [(py "items", JStr (py "grouping"))])) Healthy)
             Sample.address Sample.fresh
             (Cases.body_with_result (JObject [(py "items", JStr (py "grouping"))])) _
             eq_refl eq_refl eq_refl))))
             [(py "jsonrpc", JStr (py "2.0"));
              (py "result", JObject [(py "items", JStr (py "grouping"))])]
             [(py "items", JStr (py "grouping"))] (py "grouping"));
      reflexivity.
Defined.

(** X7.  A failure of [requests.post] itself is not absorbed: [check_nft]
    raises the same exception, the call made and nothing logged, and
    [check_wallet] passes it on after the in-progress notice, with no
    decision reported and nothing written. *)
Theorem transport_failure_escapes
        (e : env) (a : str) (w : world) (ex : exn) :
  requests_post e (payload e a) = Raise ex ->
  check_nft e a w = (Raise ex, record_call (payload e a) w)
  /\ (forall text,
         strip text = a ->
         valid_length a = true ->
         fst (check_wallet e text w) = Raise ex /\
         outbox (snd (check_wallet e text w)) = outbox w ++ [MsgChecking a] /\
         db (snd (check_wallet e text w)) = db w).
Proof.
  intros Hpost.
  assert (check_nft e a w = (Raise ex, record_call (payload e a) w)) as Hq.
  { unfold check_nft. run_handler. now rewrite Hpost. }
  split; [exact Hq|].
  intros text <- Hv.
  apply (check_wallet_query_raises e text w ex Hv). now rewrite Hq.
Qed.

Lemma transport_failure_escapes_witness :
  check_nft (Cases.env_offline Healthy) Sample.address Sample.fresh
  = (Raise RequestException,
     record_call (payload (Cases.env_offline Healthy) Sample.address) Sample.fresh)
  /\ fst (check_wallet (Cases.env_offline Healthy) Sample.padded Sample.fresh)
     = Raise RequestException.
Proof.
  destruct (transport_failure_escapes (Cases.env_offline Healthy)
              Sample.address Sample.fresh RequestException eq_refl)
    as [Hq Hw].
  split; [exact Hq|].
  exact (proj1 (Hw Sample.padded eq_refl eq_refl)).
Defined.

(* ================================================================== *)
(** ** Further properties: the ledger *)
(* ================================================================== *)

Lemma find_do_update_other (a a' : str) (v : Z) (rs : list Wallets.row) :
  a' <> a ->
  Wallets.find a' (Wallets.do_update a v rs) = Wallets.find a' rs.
Proof.
  intros Hne. induction rs as [|r rs IH]; simpl; [reflexivity|].
  destruct (PyStr.eqb (Wallets.wallet_address r) a) eqn:Ea; simpl.
  - apply eqb_eq in Ea.
    destruct (PyStr.eqb (Wallets.wallet_address r) a') eqn:Ea'; [|reflexivity].
    apply eqb_eq in Ea'. congruence.
  - destruct (PyStr.eqb (Wallets.wallet_address r) a'); [reflexivity | exact IH].
Qed.

Lemma find_app (a : str) (rs tl : list Wallets.row) :
  Wallets.find a (rs ++ tl) =
    match Wallets.find a rs with
    | Some r => Some r
    | None => Wallets.find a tl
    end.
Proof.
  induction rs as [|r rs IH]; simpl; [reflexivity|].
  destruct (PyStr.eqb (Wallets.wallet_address r) a); [reflexivity | exact IH].
Qed.

Lemma find_upsert_other (a a' : str) (v v' : Z) (t : Wallets.table) :
  a' <> a ->
  Wallets.find a' (Wallets.rows (Wallets.upsert a v v' t)) =
  Wallets.find a' (Wallets.rows t).
Proof.
  intros Hne. unfold Wallets.upsert. simpl.
  destruct (Wallets.find a (Wallets.rows t)).
  - now apply find_do_update_other.
  - rewrite find_app. simpl.
    destruct (PyStr.eqb a a') eqn:E.
    + apply eqb_eq in E. congruence.
    + now destruct (Wallets.find a' (Wallets.rows t)).
Qed.

Lemma find_present (a : str) (rs : list Wallets.row) :
  Wallets.find a rs <> None <-> In a (List.map Wallets.wallet_address rs).
Proof.
  split.
  - intros H. destruct (Wallets.find a rs) as [r|] eqn:E; [|congruence].
    apply WalletsFacts.find_some in E as [Hin <-]. now apply in_map.
  - intros Hin E. now apply WalletsFacts.find_none in E.
Qed.

(** What [check_wallet] leaves in the store: what it found, or what it
    found with the stripped text saved. *)
Lemma check_wallet_db (e : env) (text : str) (w : world) :
  db (snd (check_wallet e text w)) = db w \/
  exists b,
    db (snd (check_wallet e text w)) =
      Wallets.upsert (strip text) (int b) (int b) (db w).
Proof.
  destruct (valid_length (strip text)) eqn:Hv.
  - destruct (fst (check_nft e (strip text) w)) as [b|ex] eqn:Hq.
    + destruct (sqlite e) eqn:Hs.
      2: { left. now destruct (check_wallet_store_unopened e text w b Hv Hq Hs)
             as [_ [_ Hd]]. }
      4: { left. now destruct (check_wallet_bind_fails e text w b Hv Hq Hs)
             as [_ [_ [_ Hd]]]. }
      all: assert (sqlite e <> ConnectFails) as Hne by congruence;
        assert (sqlite e <> BindFails) as Hnb by congruence;
        destruct (check_wallet_reports e text w b Hv Hq Hne Hnb) as [_ [_ [_ Hd]]];
        rewrite Hs in Hd; first [left; exact Hd | right; exists b; exact Hd].
    + left. now destruct (check_wallet_query_raises e text w ex Hv Hq)
        as [_ [_ Hd]].
  - left. now rewrite (check_wallet_rejects e text w Hv).
Qed.

(** X9.  Saving one address changes the record of no other: every other
    address has after [save_wallet], and after a whole [check_wallet],
    the very record it had before (same id, same flag), or none if it
    had none. *)
Theorem other_wallets_untouched (a' : str) (w : world) :
  (forall e a b,
      a' <> a ->
      Wallets.find a' (Wallets.rows (db (snd (save_wallet e a b w)))) =
      Wallets.find a' (Wallets.rows (db w)))
  /\ (forall e text,
         a' <> strip text ->
         Wallets.find a' (Wallets.rows (db (snd (check_wallet e text w)))) =
         Wallets.find a' (Wallets.rows (db w))).
Proof.
  split.
  - intros e a b Hne. rewrite save_wallet_db.
    destruct (sqlite e); try reflexivity. now apply find_upsert_other.
  - intros e text Hne.
    destruct (check_wallet_db e text w) as [Hd | [b Hd]]; rewrite Hd.
    + reflexivity.
    + now apply find_upsert_other.
Qed.

Lemma other_wallets_untouched_witness :
  Wallets.find Sample.other_address
    (Wallets.rows
       (db (snd (save_wallet (Sample.env_of Sample.http_500 Healthy)
                   Sample.address false
                   (run_saves Sample.calls Sample.fresh)))))
  = Some (Wallets.mk_row 2 Sample.other_address 0)
  /\ Wallets.find Sample.other_address
       (Wallets.rows
          (db (snd (check_wallet (Sample.env_of Sample.http_500 Healthy)
                      Sample.padded
                      (run_saves Sample.calls Sample.fresh)))))
     = Some (Wallets.mk_row 2 Sample.other_address 0).
Proof.
  destruct (other_wallets_untouched Sample.other_address
              (run_saves Sample.calls Sample.fresh)) as [Hsave Hcheck].
  split.
  - rewrite (Hsave (Sample.env_of Sample.http_500 Healthy) Sample.address false).
    + reflexivity.
    + intros E. discriminate E.
  - rewrite (Hcheck (Sample.env_of Sample.http_500 Healthy) Sample.padded).
    + reflexivity.
    + intros E. discriminate E.
Defined.

Lemma save_wallet_log (e : env) (a : str) (b : bool) (w : world) :
  log (snd (save_wallet e a b w)) =
    if raises_sqlite_error (sqlite e) then log w ++ [ErrorSaving] else log w.
Proof. unfold save_wallet. destruct (sqlite e); reflexivity. Qed.

Lemma failed_saves_cons (e : env) (a : str) (b : bool)
      (calls : list (env * str * bool)) :
  failed_saves ((e, a, b) :: calls) =
    ((if raises_sqlite_error (sqlite e) then 1 else 0) + failed_saves calls)%nat.
Proof. unfold failed_saves. simpl. now destruct (raises_sqlite_error (sqlite e)). Qed.

Lemma failed_saves_le (calls : list (env * str * bool)) :
  (failed_saves calls <= List.length calls)%nat.
Proof. apply filter_length_le. Qed.

Lemma run_saves_log (calls : list (env * str * bool)) (w : world) :
  log (run_saves calls w) = log w ++ repeat ErrorSaving (failed_saves calls).
Proof.
  revert w; induction calls as [|[[e a] b] calls IH]; intros w.
  - simpl. now rewrite app_nil_r.
  - cbn [run_saves]. rewrite IH, save_wallet_log, failed_saves_cons.
    destruct (raises_sqlite_error (sqlite e)); simpl; [|reflexivity].
    now rewrite <- app_assoc.
Qed.

Lemma run_saves_all_failed (calls : list (env * str * bool)) (w : world) :
  failed_saves calls = List.length calls -> db (run_saves calls w) = db w.
Proof.
  revert w; induction calls as [|[[e a] b] calls IH]; intros w H; [reflexivity|].
  rewrite failed_saves_cons in H. simpl in H.
  pose proof (failed_saves_le calls) as Hle.
  cbn [run_saves].
  destruct (raises_sqlite_error (sqlite e)) eqn:Hh; simpl in H; [|lia].
  rewrite IH; [|lia]. rewrite save_wallet_db.
  destruct (sqlite e); try reflexivity. discriminate Hh.
Qed.

(** X8.  A save that meets a failing store, a [sqlite3.Error] at
    [connect], at the statement or at the commit, leaves the table exactly
    as it was and logs exactly one error record; an exception of another
    kind leaves the table as it was too; a save that succeeds logs
    nothing; neither sends a reply or makes a network call.  Over any
    sequence of saves the log grows by one error record per save that
    failed so, and if all of them failed so the table is the one the
    sequence started from. *)
Theorem save_failures_logged_not_written :
  (forall e a b w,
      sqlite e = ConnectFails \/ sqlite e = ExecuteFails \/ sqlite e = CommitFails ->
      db (snd (save_wallet e a b w)) = db w /\
      log (snd (save_wallet e a b w)) = log w ++ [ErrorSaving])
  /\ (forall e a b w,
         sqlite e <> Healthy -> db (snd (save_wallet e a b w)) = db w)
  /\ (forall e a b w,
         sqlite e = Healthy -> log (snd (save_wallet e a b w)) = log w)
  /\ (forall e a b w,
         outbox (snd (save_wallet e a b w)) = outbox w /\
         net_calls (snd (save_wallet e a b w)) = net_calls w)
  /\ (forall calls w,
         log (run_saves calls w) =
           log w ++ repeat ErrorSaving (failed_saves calls))
  /\ (forall calls w,
         failed_saves calls = List.length calls ->
         db (run_saves calls w) = db w).
Proof.
  split; [|split; [|split; [|split; [|split]]]].
  - intros e a b w Hs. rewrite save_wallet_db, save_wallet_log.
    destruct Hs as [Hs|[Hs|Hs]]; rewrite Hs; auto.
  - intros e a b w Hs. rewrite save_wallet_db.
    destruct (sqlite e); congruence.
  - intros e a b w Hs. rewrite save_wallet_log, Hs. reflexivity.
  - exact save_wallet_frame.
  - exact run_saves_log.
  - exact run_saves_all_failed.
Qed.

Lemma save_failures_logged_not_written_witness :
  (db (snd (save_wallet (Sample.env_of Sample.http_500 CommitFails)
              Sample.address true (run_saves Sample.calls Sample.fresh)))
   = db (run_saves Sample.calls Sample.fresh))
  /\ (db (snd (save_wallet (Sample.env_of Sample.http_500 BindFails)
                 Cases.surrogate_address true
                 (run_saves Sample.calls Sample.fresh)))
      = db (run_saves Sample.calls Sample.fresh))
  /\ log (snd (save_wallet (Sample.env_of Sample.http_500 Healthy)
                 Sample.address true Sample.fresh)) = log Sample.fresh
  /\ log (run_saves Sample.calls Sample.fresh) = [ErrorSaving]
  /\ db (run_saves
          [(Sample.env_of Sample.http_500 ConnectFails, Sample.address, true);
           (Sample.env_of Sample.http_500 ExecuteFails, Sample.address, false)]
          (run_saves Sample.calls Sample.fresh))
     = db (run_saves Sample.calls Sample.fresh).
Proof.
  destruct save_failures_logged_not_written
    as [Hfail [Hkept [Hok [_ [Hlog Hall]]]]].
  split; [|split; [|split; [|split]]].
  - apply (Hfail (Sample.env_of Sample.http_500 CommitFails) Sample.address true
                 (run_saves Sample.calls Sample.fresh)).
    right. right. reflexivity.
  - apply (Hkept (Sample.env_of Sample.http_500 BindFails)
                 Cases.surrogate_address true
                 (run_saves Sample.calls Sample.fresh)).
    simpl. discriminate.
  - apply (Hok (Sample.env_of Sample.http_500 Healthy) Sample.address true
               Sample.fresh). reflexivity.
  - exact (Hlog Sample.calls Sample.fresh).
  - apply (Hall [(Sample.env_of Sample.http_500 ConnectFails, Sample.address, true);
                 (Sample.env_of Sample.http_500 ExecuteFails, Sample.address, false)]
                (run_saves Sample.calls Sample.fresh)).
    reflexivity.
Defined.

(** The record of an address after a sequence of saves. *)
Lemma run_saves_find (calls : list (env * str * bool)) (w : world) (a : str) :
  match last_saved a calls with
  | Some b =>
      exists row,
        Wallets.find a (Wallets.rows (db (run_saves calls w))) = Some row /\
        Wallets.wallet_address row = a /\ Wallets.has_nft row = int b
  | None =>
      Wallets.find a (Wallets.rows (db (run_saves calls w))) =
      Wallets.find a (Wallets.rows (db w))
  end.
Proof.
  revert w; induction calls as [|[[e a'] b] calls IH]; intros w; [reflexivity|].
  cbn [run_saves last_saved].
  specialize (IH (snd (save_wallet e a' b w))).
  destruct (last_saved a calls) as [later|]; [exact IH|].
  rewrite IH, save_wallet_db.
  destruct (sqlite e) eqn:Hs; simpl; try reflexivity.
  destruct (PyStr.eqb a' a) eqn:Ea.
  - apply eqb_eq in Ea. subst a'. apply WalletsFacts.find_upsert.
  - apply eqb_neq in Ea. apply find_upsert_other. congruence.
Qed.

Lemma last_saved_some (a : str) (calls : list (env * str * bool)) :
  last_saved a calls <> None <->
  exists e b, In (e, a, b) calls /\ sqlite e = Healthy.
Proof.
  induction calls as [|[[e a'] b] calls IH]; simpl.
  - split; [congruence | intros [e [b [[] _]]]].
  - destruct (last_saved a calls) as [later|].
    + split; [|congruence]. intros _.
      destruct (proj1 IH) as [e0 [b0 [Hin Hs]]]; [congruence|].
      exists e0, b0. auto.
    + destruct (is_healthy (sqlite e) && PyStr.eqb a' a) eqn:E.
      * split; [|congruence]. intros _.
        apply andb_true_iff in E as [Hh Ha]. apply eqb_eq in Ha. subst a'.
        exists e, b. split; [now left|]. now destruct (sqlite e).
      * split; [congruence|]. intros [e0 [b0 [[Heq|Hin] Hs]]].
        -- inversion Heq; subst. rewrite Hs, eqb_refl in E. discriminate.
        -- destruct (proj2 IH); [|reflexivity]. exists e0, b0. auto.
Qed.

(** X10.  After any sequence of saves, with failures and other addresses
    in between, the flag held for an address is that of the last save of
    this address that reached a working store; an address no such save
    named keeps exactly the record it had, or has none. *)
Theorem last_successful_save_wins
        (calls : list (env * str * bool)) (w : world) (a : str) :
  (forall b,
      last_saved a calls = Some b ->
      exists row,
        Wallets.find a (Wallets.rows (db (run_saves calls w))) = Some row /\
        Wallets.wallet_address row = a /\ Wallets.has_nft row = int b)
  /\ (last_saved a calls = None ->
      Wallets.find a (Wallets.rows (db (run_saves calls w))) =
      Wallets.find a (Wallets.rows (db w))).
Proof.
  pose proof (run_saves_find calls w a) as H.
  split.
  - intros b Hb. now rewrite Hb in H.
  - intros Hn. now rewrite Hn in H.
Qed.

Lemma last_successful_save_wins_witness :
  (exists row,
      Wallets.find Sample.address
        (Wallets.rows (db (run_saves Sample.calls Sample.fresh))) = Some row /\
      Wallets.wallet_address row = Sample.address /\
      Wallets.has_nft row = int true)
  /\ Wallets.find (py "never-saved")
       (Wallets.rows (db (run_saves Sample.calls Sample.fresh)))
     = Wallets.find (py "never-saved") (Wallets.rows (db Sample.fresh)).
Proof.
  split.
  - apply (proj1 (last_successful_save_wins Sample.calls Sample.fresh
                    Sample.address) true).
    reflexivity.
  - apply (proj2 (last_successful_save_wins Sample.calls Sample.fresh
                    (py "never-saved"))).
    reflexivity.
Defined.

(** X11.  After any sequence of saves an address has a record exactly
    when it had one before or some save of it reached a working store: a
    save that failed creates no record, and no save removes one. *)
Theorem recorded_iff_saved
        (calls : list (env * str * bool)) (w : world) (a : str) :
  In a (List.map Wallets.wallet_address
          (Wallets.rows (db (run_saves calls w)))) <->
  In a (List.map Wallets.wallet_address (Wallets.rows (db w))) \/
  exists e b, In (e, a, b) calls /\ sqlite e = Healthy.
Proof.
  rewrite <- !find_present, <- last_saved_some.
  pose proof (run_saves_find calls w a) as H.
  destruct (last_saved a calls) as [b|].
  - destruct H as [row [Hf _]]. rewrite Hf. split; [right|]; congruence.
  - rewrite H. split; [now left | intros [Hl|Hr]; [exact Hl | congruence]].
Qed.

Lemma recorded_iff_saved_witness :
  In Sample.other_address
     (List.map Wallets.wallet_address
        (Wallets.rows (db (run_saves Sample.calls Sample.fresh))))
  /\ ~ In (py "refused")
       (List.map Wallets.wallet_address
          (Wallets.rows
             (db (run_saves
                    [(Sample.env_of Sample.http_500 ExecuteFails, py "refused", true)]
                    Sample.fresh)))).
Proof.
  split.
  - apply (proj2 (recorded_iff_saved Sample.calls Sample.fresh
                    Sample.other_address)).
    right. exists (Sample.env_of (Sample.ok []) Healthy), false.
    split; [right; left; reflexivity | reflexivity].
  - intros Hin.
    apply (proj1 (recorded_iff_saved
                    [(Sample.env_of Sample.http_500 ExecuteFails, py "refused", true)]
                    Sample.fresh (py "refused"))) in Hin.
    destruct Hin as [[]|[e [b [[Heq|[]] Hs]]]].
    inversion Heq; subst e. discriminate Hs.
Defined.

(* ================================================================== *)
(** ** Further properties: the whole verification *)
(* ================================================================== *)

(** X13.  End to end, for a text that passes the guard, a 200 answer
    whose [result.items] is an asset list of the documented shape, and a
    store that works: [check_wallet] returns, having sent the in-progress
    notice and then the decision, "has NFT" exactly when some asset
    carries the configured collection; and the record of the stripped
    address holds that decision as 1 or 0. *)
Theorem check_wallet_end_to_end
        (e : env) (text : str) (w : world) (cid : str) (r : response)
        (data result : json) (nfts : list json) :
  valid_length (strip text) = true ->
  COLLECTION_ID e = Some cid ->
  requests_post e (payload e (strip text)) = Return r ->
  status_code r = 200%Z ->
  body r = Some data ->
  getitem data (py "result") = Return result ->
  getitem result (py "items") = Return (JArray nfts) ->
  forallb well_formed_asset nfts = true ->
  sqlite e = Healthy ->
  exists b,
    (b = true <-> exists nft, In nft nfts /\ carries cid nft) /\
    fst (check_wallet e text w) = Return tt /\
    outbox (snd (check_wallet e text w)) =
      outbox w ++ [MsgChecking (strip text); decision_of b] /\
    db (snd (check_wallet e text w)) =
      Wallets.upsert (strip text) (int b) (int b) (db w) /\
    exists row,
      Wallets.find (strip text)
        (Wallets.rows (db (snd (check_wallet e text w)))) = Some row /\
      Wallets.has_nft row = int b.
Proof.
  intros Hv Hc Hpost Hst Hbody Hres Hitems Hwf Hs.
  destruct (membership_decision_well_formed cid nfts Hwf) as [b [Hb Hiff]].
  assert (fst (check_nft e (strip text) w) = Return b) as Hq.
  { rewrite (check_nft_scans e (strip text) w r data result nfts
               Hpost Hst Hbody Hres Hitems), Hc. exact Hb. }
  assert (sqlite e <> ConnectFails) as Hne by congruence.
  assert (sqlite e <> BindFails) as Hnb by congruence.
  destruct (check_wallet_reports e text w b Hv Hq Hne Hnb) as [Hr [Ho [_ Hd]]].
  rewrite Hs in Hd.
  exists b. split; [exact Hiff|]. split; [exact Hr|]. split; [exact Ho|].
  split; [exact Hd|]. rewrite Hd.
  destruct (WalletsFacts.find_upsert (strip text) (int b) (db w))
    as [row [Hf [_ Hval]]].
  exists row. auto.
Qed.

Lemma check_wallet_end_to_end_witness :
  exists b,
    (b = true <->
     exists nft, In nft Sample.holdings /\ carries Sample.collection nft) /\
    fst (check_wallet (Sample.env_of (Sample.ok Sample.holdings) Healthy)
           Sample.padded Sample.fresh) = Return tt /\
    outbox (snd (check_wallet (Sample.env_of (Sample.ok Sample.holdings) Healthy)
                   Sample.padded Sample.fresh)) =
      outbox Sample.fresh ++ [MsgChecking (strip Sample.padded); decision_of b] /\
    db (snd (check_wallet (Sample.env_of (Sample.ok Sample.holdings) Healthy)
               Sample.padded Sample.fresh)) =
      Wallets.upsert (strip Sample.padded) (int b) (int b) (db Sample.fresh) /\
    exists row,
      Wallets.find (strip Sample.padded)
        (Wallets.rows
           (db (snd (check_wallet (Sample.env_of (Sample.ok Sample.holdings) Healthy)
                       Sample.padded Sample.fresh)))) = Some row /\
      Wallets.has_nft row = int b.
Proof.
  apply (check_wallet_end_to_end
           (Sample.env_of (Sample.ok Sample.holdings) Healthy)
           Sample.padded Sample.fresh Sample.collection
           (Sample.ok Sample.holdings) (Sample.envelope Sample.holdings)
           (JObject [(py "total", JInt 3); (py "items", JArray Sample.holdings)])
           Sample.holdings); reflexivity.
Defined.

(** X14.  What the user is told is what is stored: whenever
    [check_wallet] returns past the guard on a working store, its last
    reply is the decision whose integer is the flag now held for the
    stripped address.  When the statement or the commit fails the
    decision is still sent, and the table is the one found. *)
Theorem report_matches_ledger (e : env) (text : str) (w : world) :
  valid_length (strip text) = true ->
  fst (check_wallet e text w) = Return tt ->
  (sqlite e = Healthy ->
   exists b row,
     outbox (snd (check_wallet e text w)) =
       outbox w ++ [MsgChecking (strip text); decision_of b] /\
     Wallets.find (strip text)
       (Wallets.rows (db (snd (check_wallet e text w)))) = Some row /\
     Wallets.has_nft row = int b)
  /\ (sqlite e <> Healthy ->
      db (snd (check_wallet e text w)) = db w /\
      exists b,
        outbox (snd (check_wallet e text w)) =
          outbox w ++ [MsgChecking (strip text); decision_of b]).
Proof.
  intros Hv Hret.
  destruct (fst (check_nft e (strip text) w)) as [b|ex] eqn:Hq.
  2: { destruct (check_wallet_query_raises e text w ex Hv Hq) as [Hr _].
       congruence. }
  assert (sqlite e <> ConnectFails) as Hne.
  { intros Hs.
    destruct (check_wallet_store_unopened e text w b Hv Hq Hs) as [Hr _].
    congruence. }
  assert (sqlite e <> BindFails) as Hnb.
  { intros Hs.
    destruct (check_wallet_bind_fails e text w b Hv Hq Hs) as [Hr _].
    congruence. }
  destruct (check_wallet_reports e text w b Hv Hq Hne Hnb) as [_ [Ho [_ Hd]]].
  split.
  - intros Hs. rewrite Hs in Hd.
    destruct (WalletsFacts.find_upsert (strip text) (int b) (db w))
      as [row [Hf [_ Hval]]].
    exists b, row. rewrite Hd. auto.
  - intros Hs. split; [|exists b; exact Ho].
    rewrite Hd. destruct (sqlite e); congruence.
Qed.

Lemma report_matches_ledger_witness :
  (exists b row,
      outbox (snd (check_wallet (Sample.env_of (Sample.ok Sample.holdings) Healthy)
                     Sample.address Sample.fresh)) =
        outbox Sample.fresh ++ [MsgChecking (strip Sample.address); decision_of b] /\
      Wallets.find (strip Sample.address)
        (Wallets.rows
           (db (snd (check_wallet (Sample.env_of (Sample.ok Sample.holdings) Healthy)
                       Sample.address Sample.fresh)))) = Some row /\
      Wallets.has_nft row = int b)
  /\ db (snd (check_wallet (Sample.env_of (Sample.ok Sample.holdings) CommitFails)
                Sample.address Sample.fresh)) = db Sample.fresh.
Proof.
  split.
  - apply (proj1 (report_matches_ledger
                    (Sample.env_of (Sample.ok Sample.holdings) Healthy)
                    Sample.address Sample.fresh eq_refl eq_refl)).
    reflexivity.
  - apply (proj2 (report_matches_ledger
                    (Sample.env_of (Sample.ok Sample.holdings) CommitFails)
                    Sample.address Sample.fresh eq_refl eq_refl)).
    simpl. discriminate.
Defined.

Lemma strip_strip (s : str) : strip (strip s) = strip s.
Proof.
  destruct (strip_split s) as [l [r [E [Hl Hr]]]].
  rewrite E at 2. symmetry. now apply strip_pad.
Qed.

Lemma upsert_addresses (a x : str) (v v' : Z) (t : Wallets.table) :
  In x (List.map Wallets.wallet_address (Wallets.rows (Wallets.upsert a v v' t))) ->
  x = a \/ In x (List.map Wallets.wallet_address (Wallets.rows t)).
Proof.
  intros Hin. destruct (PyStr.eqb x a) eqn:E.
  - left. now apply eqb_eq.
  - right. apply eqb_neq in E. apply find_present. apply find_present in Hin.
    now rewrite (find_upsert_other a x v v' t E) in Hin.
Qed.

(** The two things a run of [check_wallet] can leave behind. *)
Lemma check_wallet_effects (e : env) (text : str) (w : world) :
  (valid_length (strip text) = false /\
   net_calls (snd (check_wallet e text w)) = net_calls w /\
   db (snd (check_wallet e text w)) = db w)
  \/ (valid_length (strip text) = true /\
      net_calls (snd (check_wallet e text w)) =
        net_calls w ++ [payload e (strip text)] /\
      (db (snd (check_wallet e text w)) = db w \/
       exists b,
         db (snd (check_wallet e text w)) =
           Wallets.upsert (strip text) (int b) (int b) (db w))).
Proof.
  destruct (valid_length (strip text)) eqn:Hv.
  - right. split; [reflexivity|].
    split; [exact (proj1 (check_wallet_queries_stripped e text w Hv))|].
    apply check_wallet_db.
  - left. rewrite (check_wallet_rejects e text w Hv). auto.
Qed.

(** X12.  Only addresses that passed the guard travel: over any sequence
    of messages handled by [check_wallet], every [ownerAddress] sent to
    the remote service and every key written to [wallets] is a stripped
    text of 32 to 44 characters, provided those already there were. *)
Theorem only_valid_addresses_travel (runs : list (env * str)) (w : world) :
  (forall x, In x (List.map Wallets.wallet_address (Wallets.rows (db w))) ->
             key_ok x) ->
  (forall q, In q (net_calls w) -> key_ok (ownerAddress q)) ->
  (forall x,
      In x (List.map Wallets.wallet_address
              (Wallets.rows (db (run_checks runs w)))) ->
      key_ok x)
  /\ (forall q, In q (net_calls (run_checks runs w)) ->
                key_ok (ownerAddress q)).
Proof.
  revert w; induction runs as [|[e text] runs IH]; intros w Hdb Hnet;
    [split; assumption|].
  cbn [run_checks]. apply IH.
  - intros x Hx.
    destruct (check_wallet_effects e text w)
      as [[_ [_ Hd]] | [Hv [_ [Hd | [b Hd]]]]]; rewrite Hd in Hx.
    + now apply Hdb.
    + now apply Hdb.
    + apply upsert_addresses in Hx as [-> | Hx]; [|now apply Hdb].
      split; [exact Hv | apply strip_strip].
  - intros q Hq.
    destruct (check_wallet_effects e text w)
      as [[_ [Hn _]] | [Hv [Hn _]]]; rewrite Hn in Hq.
    + now apply Hnet.
    + apply in_app_or in Hq as [Hq | [<- | []]]; [now apply Hnet|].
      split; [exact Hv | apply strip_strip].
Qed.

Lemma only_valid_addresses_travel_witness :
  (forall x,
      In x (List.map Wallets.wallet_address
              (Wallets.rows (db (run_checks Cases.messages Sample.fresh)))) ->
      key_ok x)
  /\ (forall q, In q (net_calls (run_checks Cases.messages Sample.fresh)) ->
                key_ok (ownerAddress q)).
Proof.
  apply (only_valid_addresses_travel Cases.messages Sample.fresh).
  - intros x [].
  - intros q [].
Defined.

(** X17.  The replies of one run of [check_wallet] are one of four: the
    rejection notice alone; the in-progress notice alone; the in-progress
    notice followed by "has NFT"; or followed by "no NFT".  The run
    rejects exactly when the stripped text fails the guard, and it ends
    in an exception exactly when the in-progress notice is all it
    sent. *)
Theorem check_wallet_replies (e : env) (text : str) (w : world) :
  exists sent,
    outbox (snd (check_wallet e text w)) = outbox w ++ sent /\
    (sent = [MsgInvalidAddress] \/
     sent = [MsgChecking (strip text)] \/
     sent = [MsgChecking (strip text); MsgHasNft] \/
     sent = [MsgChecking (strip text); MsgNoNft]) /\
    (sent = [MsgInvalidAddress] <-> valid_length (strip text) = false) /\
    (sent = [MsgChecking (strip text)] <->
     exists ex, fst (check_wallet e text w) = Raise ex).
Proof.
  destruct (valid_length (strip text)) eqn:Hv.
  - destruct (fst (check_nft e (strip text) w)) as [b|ex] eqn:Hq.
    + destruct (sqlite e) eqn:Hs.
      2: { destruct (check_wallet_store_unopened e text w b Hv Hq Hs)
             as [Hr [Ho _]].
           exists [MsgChecking (strip text)]. split; [exact Ho|].
           split; [auto|]. split; [split; discriminate|].
           split; [intros _; eexists; exact Hr | reflexivity]. }
      4: { destruct (check_wallet_bind_fails e text w b Hv Hq Hs)
             as [Hr [Ho _]].
           exists [MsgChecking (strip text)]. split; [exact Ho|].
           split; [auto|]. split; [split; discriminate|].
           split; [intros _; eexists; exact Hr | reflexivity]. }
      all: assert (sqlite e <> ConnectFails) as Hne by congruence;
        assert (sqlite e <> BindFails) as Hnb by congruence;
        destruct (check_wallet_reports e text w b Hv Hq Hne Hnb) as [Hr [Ho _]];
        exists [MsgChecking (strip text); decision_of b];
        (split; [exact Ho|]);
        (split; [destruct b; auto|]);
        (split; [split; discriminate|]);
        (split; [discriminate | intros [ex Hex]; congruence]).
    + destruct (check_wallet_query_raises e text w ex Hv Hq) as [Hr [Ho _]].
      exists [MsgChecking (strip text)]. split; [exact Ho|].
      split; [auto|]. split; [split; discriminate|].
      split; [intros _; eexists; exact Hr | reflexivity].
  - rewrite (check_wallet_rejects e text w Hv). simpl.
    exists [MsgInvalidAddress]. split; [reflexivity|].
    split; [auto|]. split; [split; reflexivity|].
    split; [discriminate | intros [ex Hex]; discriminate].
Qed.

Lemma check_wallet_replies_witness :
  exists sent,
    outbox (snd (check_wallet (Cases.env_offline Healthy)
                   Sample.address Sample.fresh)) = outbox Sample.fresh ++ sent /\
    (sent = [MsgInvalidAddress] \/
     sent = [MsgChecking (strip Sample.address)] \/
     sent = [MsgChecking (strip Sample.address); MsgHasNft] \/
     sent = [MsgChecking (strip Sample.address); MsgNoNft]) /\
    (sent = [MsgInvalidAddress] <-> valid_length (strip Sample.address) = false) /\
    (sent = [MsgChecking (strip Sample.address)] <->
     exists ex,
       fst (check_wallet (Cases.env_offline Healthy)
              Sample.address Sample.fresh) = Raise ex).
Proof.
  exact (check_wallet_replies (Cases.env_offline Healthy)
           Sample.address Sample.fresh).
Defined.

Lemma first_hit_app (body : json -> outcome bool) (xs ys : list json) :
  first_hit body (xs ++ ys) =
    match first_hit body xs with
    | Return true => Return true
    | Return false => first_hit body ys
    | Raise ex => Raise ex
    end.
Proof.
  induction xs as [|x xs IH]; simpl; [reflexivity|].
  destruct (body x) as [[|]|ex]; simpl; [reflexivity | exact IH | reflexivity].
Qed.

(** X18.  Scanning two asset lists one after the other is scanning the
    first and, only if that answers [False], scanning the second: a
    match or an exception in the first settles the answer, and on lists
    where the scan returns, the answer for the whole is the disjunction
    of the answers for the parts. *)
Theorem scan_of_concatenation (c : option str) (xs ys : list json) :
  membership_decision c (xs ++ ys) =
    match membership_decision c xs with
    | Return true => Return true
    | Return false => membership_decision c ys
    | Raise ex => Raise ex
    end
  /\ (forall bx by_,
         membership_decision c xs = Return bx ->
         membership_decision c ys = Return by_ ->
         membership_decision c (xs ++ ys) = Return (bx || by_) /\
         membership_decision c (ys ++ xs) = Return (bx || by_)).
Proof.
  split; [apply first_hit_app|].
  intros bx by_ Hx Hy. unfold membership_decision in *.
  rewrite !first_hit_app, Hx, Hy. destruct bx, by_; auto.
Qed.

Lemma scan_of_concatenation_witness :
  membership_decision (Some Sample.collection)
    (Cases.null_tagged ++ Sample.holdings) = Return (false || true)
  /\ membership_decision (Some Sample.collection)
       (Sample.holdings ++ Cases.null_tagged) = Return (false || true).
Proof.
  apply (proj2 (scan_of_concatenation (Some Sample.collection)
                  Cases.null_tagged Sample.holdings) false true);
    reflexivity.
Defined.
